(** * Atomic Design Structure Analyzer: a shallow embedding

    Model of [scripts/analyze_structure.py].  The analyzer walks the
    [components/] directory of a React project, locates component
    directories under [atoms/], [molecules/] and [organisms/], and records
    violations in a report that the methods of [AtomicDesignAnalyzer]
    mutate in place.

    Conventions of the embedding:
    - Python [str] is [string]; a character is a code point below 256, and
      the character classes of [re] ([\s], [\w], [.]) are those of Python on
      that range.
    - the file system is a tree of [node]s, queried through paths as the
      code does ([exists], [iterdir], [is_file], [read_text]);
    - the report is threaded explicitly: a method that mutates
      [self.report] is a function from reports to reports;
    - an uncaught exception is the result [None]. *)

From Stdlib Require Import ZArith Ascii String DecimalString.
From stdpp Require Import base option list sets gmap strings.

Local Open Scope Z_scope.

(** ** Text primitives *)

Module Text.

(** [s.endswith(p)]: [p] is [s] itself or a suffix of its tail. *)
Fixpoint endswith (s p : string) : bool :=
  String.eqb p s ||
  match s with
  | EmptyString => false
  | String _ s' => endswith s' p
  end.

(** [s.startswith(p)], returning what follows the prefix. *)
Fixpoint strip_prefix (p s : string) : option string :=
  match p, s with
  | EmptyString, _ => Some s
  | String a p', String b s' => if Ascii.eqb a b then strip_prefix p' s' else None
  | String _ _, EmptyString => None
  end.

(** [s.count(sub)] for a non-empty [sub]: occurrences are counted from left
    to right and do not overlap, so after a hit the scan resumes behind it
    ([skip] characters are still to be passed over). *)
Fixpoint count_from (sub s : string) (skip : nat) : nat :=
  match s with
  | EmptyString => 0%nat
  | String _ s' =>
      match skip with
      | S k => count_from sub s' k
      | O =>
          if String.prefix sub s
          then S (count_from sub s' (String.length sub - 1))
          else count_from sub s' 0
      end
  end.

Definition count (s sub : string) : nat := count_from sub s 0.

(** [s.rfind(c)] for a one-character needle: index of the last occurrence. *)
Fixpoint rfind (c : ascii) (s : string) : option nat :=
  match s with
  | EmptyString => None
  | String a s' =>
      match rfind c s' with
      | Some i => Some (S i)
      | None => if Ascii.eqb a c then Some 0%nat else None
      end
  end.

Definition is_lower (c : ascii) : bool :=
  let n := nat_of_ascii c in (97 <=? n)%nat && (n <=? 122)%nat.
Definition is_upper (c : ascii) : bool :=
  let n := nat_of_ascii c in (65 <=? n)%nat && (n <=? 90)%nat.
Definition to_upper (c : ascii) : ascii :=
  if is_lower c then ascii_of_nat (nat_of_ascii c - 32) else c.
Definition to_lower (c : ascii) : ascii :=
  if is_upper c then ascii_of_nat (nat_of_ascii c + 32) else c.

Fixpoint lower (s : string) : string :=
  match s with
  | EmptyString => EmptyString
  | String c s' => String (to_lower c) (lower s')
  end.

(** [s.capitalize()] on ASCII letters: first character upper case, the rest
    lower case.  The analyzer only capitalizes its three tier names. *)
Definition capitalize (s : string) : string :=
  match s with
  | EmptyString => EmptyString
  | String c s' => String (to_upper c) (lower s')
  end.

(** A count interpolated into an f-string: its decimal digits. *)
Definition of_nat (n : nat) : string := NilZero.string_of_uint (Nat.to_uint n).

End Text.

(** ** Regular expressions: the fragment of [re] the analyzer uses *)

Module Re.

(** Character classes. *)
Inductive cls : Type :=
| Space                 (* \s *)
| Word                  (* \w *)
| Dot                   (* .  (no DOTALL: every character but a newline) *)
| OneOf (cs : list ascii)  (* [...]  *)
| NoneOf (cs : list ascii) (* [^...] *).

(** [str.isspace] below code point 256. *)
Definition is_space (c : ascii) : bool :=
  let n := nat_of_ascii c in
  ((9 <=? n) && (n <=? 13) || (28 <=? n) && (n <=? 32)
   || (n =? 133) || (n =? 160))%nat.

(** [str.isalnum] below code point 256, or an underscore. *)
Definition is_word (c : ascii) : bool :=
  let n := nat_of_ascii c in
  ((48 <=? n) && (n <=? 57) || (65 <=? n) && (n <=? 90)
   || (97 <=? n) && (n <=? 122) || (n =? 95)
   || (n =? 170) || (n =? 178) || (n =? 179) || (n =? 181)
   || (n =? 185) || (n =? 186) || (188 <=? n) && (n <=? 190)
   || (192 <=? n) && (n <=? 214) || (216 <=? n) && (n <=? 246)
   || (248 <=? n) && (n <=? 255))%nat.

Definition mem_ascii (c : ascii) (cs : list ascii) : bool :=
  existsb (Ascii.eqb c) cs.

Definition matches (k : cls) (c : ascii) : bool :=
  match k with
  | Space => is_space c
  | Word => is_word c
  | Dot => negb (Ascii.eqb c "010"%char)
  | OneOf cs => mem_ascii c cs
  | NoneOf cs => negb (mem_ascii c cs)
  end.

(** Patterns.  Repetition is only ever applied to a character class in the
    analyzer's patterns, and is greedy. *)
Inductive regex : Type :=
| Lit (s : string)
| Class (k : cls)
| Star (k : cls)
| Plus (k : cls)
| Seq (r1 r2 : regex)
| Alt (r1 r2 : regex).

(** Backtracking matcher.  [cont] is what remains to be matched; the
    result is the text left over by the first successful way of matching,
    in [re]'s order of preference (left alternative first, longest
    repetition first). *)
Fixpoint star (p : ascii → bool) (s : string) (cont : string → option string)
  : option string :=
  match s with
  | String c s' =>
      if p c then
        match star p s' cont with
        | Some rest => Some rest
        | None => cont s
        end
      else cont s
  | EmptyString => cont s
  end.

Fixpoint run (r : regex) (s : string) (cont : string → option string)
  : option string :=
  match r with
  | Lit l =>
      match Text.strip_prefix l s with
      | Some s' => cont s'
      | None => None
      end
  | Class k =>
      match s with
      | String c s' => if matches k c then cont s' else None
      | EmptyString => None
      end
  | Star k => star (matches k) s cont
  | Plus k =>
      match s with
      | String c s' => if matches k c then star (matches k) s' cont else None
      | EmptyString => None
      end
  | Seq r1 r2 => run r1 s (λ s', run r2 s' cont)
  | Alt r1 r2 =>
      match run r1 s cont with
      | Some rest => Some rest
      | None => run r2 s cont
      end
  end.

(** [pattern.match(s)]: a match starting at the first character. *)
Definition match_at (r : regex) (s : string) : option string := run r s Some.

(** [re.search(r, s)] as a truth value: some position has a match. *)
Fixpoint search (r : regex) (s : string) : bool :=
  match match_at r s with
  | Some _ => true
  | None =>
      match s with
      | EmptyString => false
      | String _ s' => search r s'
      end
  end.

(** [re.findall(r, s)] for a pattern without groups: the matched texts,
    taken from left to right without overlap; after a match that consumed
    [n] characters the scan resumes behind it ([skip] characters are still
    to be passed over). *)
Fixpoint findall_from (r : regex) (s : string) (skip : nat) : list string :=
  match skip with
  | S k =>
      match s with
      | EmptyString => []
      | String _ s' => findall_from r s' k
      end
  | O =>
      match match_at r s with
      | Some rest =>
          let n := (String.length s - String.length rest)%nat in
          String.substring 0 n s ::
            match s with
            | EmptyString => []
            | String _ s' => findall_from r s' (n - 1)
            end
      | None =>
          match s with
          | EmptyString => []
          | String _ s' => findall_from r s' 0
          end
      end
  end.

Definition findall (r : regex) (s : string) : list string := findall_from r s 0.

(** Concatenation of a list of patterns. *)
Definition seq (rs : list regex) : regex :=
  match rs with
  | [] => Lit ""
  | r :: rs' => fold_left Seq rs' r
  end.

End Re.

(** ** The file system *)

Module FS.

(** A directory lists its entries in the order the operating system returns
    them ([os.walk] and [Path.iterdir] both read that listing).  A file
    holds its text, or [None] when [read_text] fails on it (permission
    denied, bytes that are not UTF-8). *)
Local Set Warnings "-register-all".

Inductive node : Type :=
| File (content : option string)
| Dir (entries : list (string * node)).

(** A path below the analysed source directory, as its segments. *)
Definition Path : Type := list string.

Definition child (name : string) (es : list (string * node)) : option node :=
  snd <$> List.find (λ e, String.eqb (fst e) name) es.

Fixpoint lookup (n : node) (p : Path) : option node :=
  match p with
  | [] => Some n
  | name :: p' =>
      match n with
      | File _ => None
      | Dir es =>
          match child name es with
          | Some c => lookup c p'
          | None => None
          end
      end
  end.

(** The state of the disk: what sits at the source path, if anything. *)
Definition disk : Type := option node.

Definition resolve (d : disk) (p : Path) : option node :=
  match d with
  | Some n => lookup n p
  | None => None
  end.

(** [p.exists()] *)
Definition exists_ (d : disk) (p : Path) : bool :=
  match resolve d p with
  | Some _ => true
  | None => false
  end.

(** [p.is_file()] *)
Definition is_file (d : disk) (p : Path) : bool :=
  match resolve d p with
  | Some (File _) => true
  | _ => false
  end.

(** [p.iterdir()]; raises unless [p] is a directory. *)
Definition iterdir (d : disk) (p : Path) : option (list Path) :=
  match resolve d p with
  | Some (Dir es) => Some (map (λ e, p ++ [fst e]) es)
  | _ => None
  end.

(** [p.read_text(encoding='utf-8')]; raises on a directory, on a missing
    path and on a file whose content cannot be read. *)
Definition read_text (d : disk) (p : Path) : option string :=
  match resolve d p with
  | Some (File (Some content)) => Some content
  | _ => None
  end.

(** [p.name]: the last segment. *)
Definition name (p : Path) : string := default EmptyString (last p).

(** [p.suffix]: the part of the name from its last dot on, unless that dot
    is the first or the last character. *)
Definition suffix (p : Path) : string :=
  let nm := name p in
  match Text.rfind "."%char nm with
  | Some i =>
      if ((0 <? i) && (i <? String.length nm - 1))%nat
      then String.substring i (String.length nm - i) nm
      else EmptyString
  | None => EmptyString
  end.

(** The source path as [Path(src_path)] holds it: a root (empty for a
    relative path) and the names behind it. *)
Record PurePath : Type := mkPurePath {
  anchor : string;
  names : list string
}.

(** [text.split('/')] *)
Fixpoint split_slash (text : string) : list string :=
  match text with
  | EmptyString => [EmptyString]
  | String c text' =>
      if Ascii.eqb c "/"%char then EmptyString :: split_slash text'
      else match split_slash text' with
           | seg :: rest => String c seg :: rest
           | [] => [String c EmptyString]
           end
  end.

(** [Path(text)]: the root is one slash, or two when the text starts with
    exactly two; empty names and single dots are dropped. *)
Definition parse (text : string) : PurePath :=
  let root :=
    match text with
    | String "/" (String "/" (String "/" _)) => "/"
    | String "/" (String "/" _) => "//"
    | String "/" _ => "/"
    | _ => ""
    end%string in
  mkPurePath root
    (List.filter (λ seg, negb (String.eqb seg "") && negb (String.eqb seg "."))
       (split_slash text)).

(** [str(src / p)] for the path [p] below the source path [src]. *)
Definition str (src : PurePath) (p : Path) : string :=
  match (names src ++ p)%list with
  | [] => if String.eqb (anchor src) "" then "." else anchor src
  | all => anchor src +:+ String.concat "/" all
  end.

Definition is_dir_node (n : node) : bool :=
  match n with Dir _ => true | File _ => false end.

Definition dirnames (es : list (string * node)) : list string :=
  fst <$> List.filter (λ e, is_dir_node (snd e)) es.
Definition filenames (es : list (string * node)) : list string :=
  fst <$> List.filter (λ e, negb (is_dir_node (snd e))) es.

(** [os.walk(top)], top-down: a directory's triple, then the walks of its
    sub-directories in listing order.  Walking something that is not a
    directory yields nothing. *)
Fixpoint walk_node (root : Path) (n : node)
  : list (Path * list string * list string) :=
  match n with
  | File _ => []
  | Dir es =>
      (root, dirnames es, filenames es) ::
      (fix subdirs (l : list (string * node)) :=
         match l with
         | [] => []
         | e :: l' => walk_node (root ++ [fst e]) (snd e) ++ subdirs l'
         end) es
  end.

Definition walk (d : disk) (top : Path) : list (Path * list string * list string) :=
  match resolve d top with
  | Some n => walk_node top n
  | None => []
  end.

End FS.

(** ** Violations and the report *)

Record Violation : Type := mkViolation {
  type : string;
  path : string;
  message : string;
  severity : string  (* warning | error *)
}.

Record AnalysisReport : Type := mkReport {
  violations : list Violation;
  components_found : Z;
  components_with_tests : Z;
  components_with_barrels : Z
}.

Module Report.

(** A freshly constructed [AnalysisReport()]. *)
Definition empty : AnalysisReport := mkReport [] 0 0 0.

(** [report.add(violation)] *)
Definition add (v : Violation) (r : AnalysisReport) : AnalysisReport :=
  mkReport (violations r ++ [v]) (components_found r)
           (components_with_tests r) (components_with_barrels r).

(** [report.has_errors()] *)
Definition has_errors (r : AnalysisReport) : bool :=
  existsb (λ v, String.eqb (severity v) "error") (violations r).

(** [report.components_found += 1] and its two siblings. *)
Definition incr_found (r : AnalysisReport) : AnalysisReport :=
  mkReport (violations r) (components_found r + 1)
           (components_with_tests r) (components_with_barrels r).
Definition incr_with_tests (r : AnalysisReport) : AnalysisReport :=
  mkReport (violations r) (components_found r)
           (components_with_tests r + 1) (components_with_barrels r).
Definition incr_with_barrels (r : AnalysisReport) : AnalysisReport :=
  mkReport (violations r) (components_found r)
           (components_with_tests r) (components_with_barrels r + 1).

(** [r] followed by what [e] holds: the violations of [e] behind those of
    [r], the counters added up. *)
Definition combine (r e : AnalysisReport) : AnalysisReport :=
  mkReport (violations r ++ violations e)
           (components_found r + components_found e)
           (components_with_tests r + components_with_tests e)
           (components_with_barrels r + components_with_barrels e).

End Report.

(** ** The analyzer *)

Module AtomicDesignAnalyzer.
Import FS.

Definition COMPONENT_EXTENSIONS : gset string := {[ ".tsx"; ".jsx" ]}.
Definition TEST_PATTERNS : gset string :=
  {[ ".test.tsx"; ".test.jsx"; ".spec.tsx"; ".spec.jsx" ]}.
Definition BARREL_FILES : gset string :=
  {[ "index.ts"; "index.tsx"; "index.js"; "index.jsx" ]}.

Definition paren_close : ascii := ")"%char.

(** The three patterns that suggest logic in a component. *)
Definition LOGIC_PATTERNS : list Re.regex := [
  (* const\s+\w+\s*=\s*\([^)]*\)\s*=>\s*\{ *)
  Re.seq [Re.Lit "const"; Re.Plus Re.Space; Re.Plus Re.Word; Re.Star Re.Space;
          Re.Lit "="; Re.Star Re.Space; Re.Lit "(";
          Re.Star (Re.NoneOf [paren_close]); Re.Lit ")"; Re.Star Re.Space;
          Re.Lit "=>"; Re.Star Re.Space; Re.Lit "{"];
  (* function\s+\w+\s*\([^)]*\)\s*\{ *)
  Re.seq [Re.Lit "function"; Re.Plus Re.Space; Re.Plus Re.Word;
          Re.Star Re.Space; Re.Lit "(";
          Re.Star (Re.NoneOf [paren_close]); Re.Lit ")"; Re.Star Re.Space;
          Re.Lit "{"];
  (* async\s+function *)
  Re.seq [Re.Lit "async"; Re.Plus Re.Space; Re.Lit "function"]
].

Definition STATE_HOOKS : list string :=
  ["useState"; "useReducer"; "useEffect"; "useMemo"; "useCallback"].

(** The class of the two quote characters, single and double. *)
Definition quotes : list ascii := ["'"%char; ascii_of_nat 34].

(** The pattern  from\s+Q.*/{forbidden}/|from\s+Q@/components/{forbidden}/
    where Q is the class [quotes].  The interpolated tier name is literal text: the names in
    [forbidden_imports] hold no character that is special in a pattern. *)
Definition import_pattern (forbidden : string) : Re.regex :=
  Re.Alt
    (Re.seq [Re.Lit "from"; Re.Plus Re.Space; Re.Class (Re.OneOf quotes);
             Re.Star Re.Dot; Re.Lit ("/" +:+ forbidden +:+ "/")])
    (Re.seq [Re.Lit "from"; Re.Plus Re.Space; Re.Class (Re.OneOf quotes);
             Re.Lit ("@/components/" +:+ forbidden +:+ "/")]).

(** atoms should not import from molecules or organisms;
    molecules should not import from organisms. *)
Definition forbidden_imports : gmap string (list string) :=
  {[ "atoms" := ["molecules"; "organisms"];
     "molecules" := ["organisms"];
     "organisms" := [] ]}.

(** [any(f.endswith(p) for p in patterns)] *)
Definition endswith_any (f : string) (patterns : gset string) : bool :=
  bool_decide (set_Exists (λ p, Text.endswith f p = true) patterns).

(** A file name that ends with a component extension and with no test
    pattern: the body of the [any] in [_find_component_dirs]. *)
Definition is_component_name (f : string) : bool :=
  endswith_any f COMPONENT_EXTENSIONS && negb (endswith_any f TEST_PATTERNS).

(** Iterating a procedure over a list, threading the report; an uncaught
    exception aborts the loop. *)
Fixpoint for_each {A : Type} (body : A → AnalysisReport → option AnalysisReport)
    (l : list A) (r : AnalysisReport) : option AnalysisReport :=
  match l with
  | [] => Some r
  | x :: l' =>
      match body x r with
      | Some r' => for_each body l' r'
      | None => None
      end
  end.

(** [sum(content.count(hook) for hook in STATE_HOOKS)] *)
Definition hook_count (content : string) : nat :=
  sum_list (Text.count content <$> STATE_HOOKS).

(** The list [function_matches], extended with the matches of each pattern
    in turn. *)
Definition function_matches (content : string) : list string :=
  foldl (λ acc pattern, acc ++ Re.findall pattern content) [] LOGIC_PATTERNS.

Section methods.

(** [self]: the disk the analyzer reads, and [self.src_path]. *)
Variable d : disk.
Variable src_path : FS.PurePath.

Definition components_path : Path := ["components"].

Definition _check_top_level_structure (r : AnalysisReport) : AnalysisReport :=
  let expected_dirs := ["atoms"; "molecules"; "organisms"] in
  foldl (λ r dir_name,
           let dir_path := components_path ++ [dir_name] in
           if negb (exists_ d dir_path)
           then Report.add
                  (mkViolation "structure" (str src_path dir_path)
                     ("Missing " +:+ dir_name +:+ "/ directory") "warning") r
           else r)
        r expected_dirs.

Definition _find_component_dirs (base_path : Path) : list Path :=
  foldl (λ component_dirs '(root, dirs, files),
           let has_component := existsb is_component_name files in
           if has_component then component_dirs ++ [root] else component_dirs)
        [] (walk d base_path).

Definition _check_component_logic (file_path : Path) (level : string)
    (r : AnalysisReport) : AnalysisReport :=
  match read_text d file_path with
  | None => r
  | Some content =>
      (* Count state hooks *)
      let hook_count := hook_count content in
      (* Count function definitions *)
      let function_matches := function_matches content in
      if ((2 <? hook_count) && (2 <? length function_matches))%nat
      then Report.add
             (mkViolation "logic" (str src_path file_path)
                ("Component has " +:+ Text.of_nat hook_count +:+ " hooks and "
                 +:+ Text.of_nat (length function_matches)
                 +:+ " functions. Consider extracting logic to a custom hook.")
                "warning") r
      else r
  end.

Definition _check_imports (file_path : Path) (level : string)
    (r : AnalysisReport) : AnalysisReport :=
  match read_text d file_path with
  | None => r
  | Some content =>
      foldl (λ r forbidden,
               if Re.search (import_pattern forbidden) content
               then Report.add
                      (mkViolation "dependency" (str src_path file_path)
                         (Text.capitalize level +:+ " should not import from "
                          +:+ forbidden) "error") r
               else r)
            r (default [] (forbidden_imports !! level))
  end.

(** The body of the loop [for file in files] of [_analyze_component]. *)
Definition check_file (level : string) (r : AnalysisReport) (file : Path)
  : AnalysisReport :=
  if bool_decide (suffix file ∈ COMPONENT_EXTENSIONS) then
    if negb (endswith_any (name file) TEST_PATTERNS) then
      _check_imports file level (_check_component_logic file level r)
    else r
  else r.

Definition _analyze_component (component_path : Path) (level : string)
    (r : AnalysisReport) : option AnalysisReport :=
  let r := Report.incr_found r in
  match iterdir d component_path with
  | None => None
  | Some files =>
      let file_names : gset string :=
        list_to_set (name <$> List.filter (is_file d) files) in
      (* Check for barrel *)
      let has_barrel := bool_decide (file_names ∩ BARREL_FILES ≠ ∅) in
      let r :=
        if has_barrel then Report.incr_with_barrels r
        else Report.add
               (mkViolation "barrel" (str src_path component_path)
                  "Missing barrel file (index.ts)" "warning") r in
      (* Check for tests *)
      let has_test :=
        bool_decide (set_Exists (λ f, endswith_any f TEST_PATTERNS = true) file_names) in
      let r :=
        if has_test then Report.incr_with_tests r
        else Report.add
               (mkViolation "test" (str src_path component_path)
                  "Missing test file" "warning") r in
      (* Analyze component files for logic *)
      Some (foldl (check_file level) r files)
  end.

(** The body of the loop [for level in ...] of [_analyze_components]. *)
Definition analyze_level (level : string) (r : AnalysisReport)
  : option AnalysisReport :=
  let level_path := components_path ++ [level] in
  if negb (exists_ d level_path) then Some r
  else for_each (λ component_dir, _analyze_component component_dir level)
                (_find_component_dirs level_path) r.

Definition _analyze_components (r : AnalysisReport) : option AnalysisReport :=
  for_each analyze_level ["atoms"; "molecules"; "organisms"] r.

(** [analyze], run on the report the constructor has just created. *)
Definition analyze : option AnalysisReport :=
  let r := Report.empty in
  if negb (exists_ d components_path)
  then Some (Report.add
               (mkViolation "structure" (str src_path components_path)
                  "components/ directory not found" "error") r)
  else _analyze_components (_check_top_level_structure r).

(** [analyze] called on an analyzer whose report already holds [r]: the
    body of the method, run on [self.report] as it is. *)
Definition analyze_on (r : AnalysisReport) : option AnalysisReport :=
  if negb (exists_ d components_path)
  then Some (Report.add
               (mkViolation "structure" (str src_path components_path)
                  "components/ directory not found" "error") r)
  else _analyze_components (_check_top_level_structure r).

End methods.

End AtomicDesignAnalyzer.

(** ** The entry point *)

(** What [main] leaves behind: the report it printed, when the analysis
    ran to completion, and the exit status of the process. *)
Record outcome : Type := mkOutcome {
  printed : option AnalysisReport;
  exit_code : Z
}.

(** [main]: [argv] is [sys.argv]; [at_path] tells what the file system holds
    at a path given as text.  An exception that nothing catches ends the
    process with status 1. *)
Definition main (argv : list string) (at_path : string → FS.disk) : outcome :=
  let src_path := match argv with _ :: a :: _ => a | _ => "./src"%string end in
  match at_path src_path with
  | None => mkOutcome None 1
  | Some _ =>
      match AtomicDesignAnalyzer.analyze (at_path src_path) (FS.parse src_path) with
      | Some report =>
          mkOutcome (Some report) (if Report.has_errors report then 1 else 0)
      | None => mkOutcome None 1
      end
  end.

(** ** The console report *)

Module Console.

(** [s * n] *)
Fixpoint times (s : string) (n : nat) : string :=
  match n with
  | O => EmptyString
  | S n' => s +:+ times s n'
  end.

(** A counter interpolated into an f-string. *)
Definition of_Z (z : Z) : string := NilZero.string_of_int (Z.to_int z).

(** [sub in s] *)
Fixpoint contains (sub s : string) : bool :=
  String.prefix sub s ||
  match s with
  | EmptyString => false
  | String _ s' => contains sub s'
  end.

(** [s.split(sep)] for a non-empty [sep]: the separators are found from left
    to right and do not overlap ([skip] characters of a separator already
    found are still to be passed over); [piece] is the piece being read. *)
Fixpoint split_from (sep s : string) (skip : nat) (piece : string) : list string :=
  match s with
  | EmptyString => [piece]
  | String c s' =>
      match skip with
      | S k => split_from sep s' k piece
      | O =>
          if String.prefix sep s
          then piece :: split_from sep s' (String.length sep - 1) EmptyString
          else split_from sep s' 0 (piece +:+ String c EmptyString)
      end
  end.

Definition split (s sep : string) : list string := split_from sep s 0 EmptyString.

(** [by_type.setdefault(key, []).append(v)], the dict being the list of its
    items in insertion order. *)
Fixpoint setdefault_append (key : string) (v : Violation)
    (items : list (string * list Violation)) : list (string * list Violation) :=
  match items with
  | [] => [(key, [v])]
  | (k, vs) :: rest =>
      if String.eqb k key then (k, vs ++ [v]) :: rest
      else (k, vs) :: setdefault_append key v rest
  end.

(** The dict [by_type] once the loop over the violations has ended. *)
Definition by_type (vs : list Violation) : list (string * list Violation) :=
  foldl (λ items v, setdefault_append (type v) v items) [] vs.

(** The icons are written as the source has them; a character beyond code
    point 255 takes several characters here, which nothing depends on. *)
Definition type_icons : gmap string string :=
  {[ "structure" := "ðŸ—ï¸ ";
     "barrel" := "ðŸ“„";
     "test" := "ðŸ§ª";
     "logic" := "âš™ï¸ ";
     "dependency" := "ðŸ”—" ]}.

Definition type_titles : gmap string string :=
  {[ "structure" := "Structure Issues";
     "barrel" := "Missing Barrels";
     "test" := "Missing Tests";
     "logic" := "Logic in Components";
     "dependency" := "Dependency Violations" ]}.

Definition newline : string := String "010"%char EmptyString.

(** The icon in front of the line for a report without violations. *)
Definition party : string := "ðŸŽ‰".

(** The two marks of severity, which the closing line uses too. *)
Definition cross_mark : string := "âŒ".
Definition warning_sign : string := "âš ï¸".

(** The path shown for a violation: what follows [/components/]. *)
Definition rel_path (p : string) : string :=
  if contains "/components/" p
  then List.last (split p "/components/") EmptyString
  else p.

(** The two lines printed for one violation. *)
Definition violation_lines (v : Violation) : list string :=
  let severity_icon :=
    if String.eqb (severity v) "error" then cross_mark else warning_sign in
  ["  " +:+ severity_icon +:+ " " +:+ rel_path (path v);
   "     " +:+ message v].

(** What the loop over [by_type.items()] prints for one item. *)
Definition group_lines (item : string * list Violation) : list string :=
  let '(vtype, violations) := item in
  let icon := default warning_sign (type_icons !! vtype) in
  let title := default vtype (type_titles !! vtype) in
  [icon +:+ " " +:+ title +:+ " (" +:+ Text.of_nat (length violations) +:+ ")";
   times "-" 40]
  ++ flat_map violation_lines violations
  ++ [EmptyString].

(** The closing line, from the numbers of errors and of warnings. *)
Definition summary_line (errors warnings : nat) : string :=
  if negb (errors =? 0)%nat
  then cross_mark +:+ " " +:+ Text.of_nat errors +:+ " error(s), "
       +:+ Text.of_nat warnings +:+ " warning(s)"
  else warning_sign +:+ "  " +:+ Text.of_nat warnings +:+ " warning(s), no errors".

End Console.

(** [print_report]: the texts passed to [print], one per call. *)
Definition print_report (report : AnalysisReport) : list string :=
  [Console.newline +:+ Console.times "=" 60;
   "  ATOMIC DESIGN ANALYSIS REPORT";
   Console.times "=" 60 +:+ Console.newline;
   (* Summary *)
   "ðŸ“¦ Components found: " +:+ Console.of_Z (components_found report);
   "âœ… With tests: " +:+ Console.of_Z (components_with_tests report)
     +:+ "/" +:+ Console.of_Z (components_found report);
   "ðŸ“„ With barrels: " +:+ Console.of_Z (components_with_barrels report)
     +:+ "/" +:+ Console.of_Z (components_found report);
   EmptyString]%string
  ++ match violations report with
     | [] =>
         [Console.party +:+ " No violations found! Your structure looks good."
          +:+ Console.newline]
     | _ =>
         (* Group violations by type *)
         flat_map Console.group_lines (Console.by_type (violations report))
         (* Final summary *)
         ++ (let errors :=
               length (List.filter (λ v, String.eqb (severity v) "error")
                         (violations report)) in
             let warnings :=
               length (List.filter (λ v, String.eqb (severity v) "warning")
                         (violations report)) in
             [Console.times "-" 60;
              Console.summary_line errors warnings;
              EmptyString])
     end.

(** ** Notions the properties are stated with *)

(** A tree as a real file system holds it: the names of a directory's
    entries are pairwise distinct. *)
Fixpoint well_formed (n : FS.node) : bool :=
  match n with
  | FS.File _ => true
  | FS.Dir es =>
      bool_decide (NoDup (fst <$> es)) && forallb (λ e, well_formed (snd e)) es
  end.

Definition well_formed_disk (d : FS.disk) : bool :=
  match d with
  | Some n => well_formed n
  | None => true
  end.

(** [n'] sits below [n] at the end of the path [q]: each segment of [q]
    names an entry of the directory reached so far. *)
Inductive reaches : FS.node → FS.Path → FS.node → Prop :=
| reaches_here n : reaches n [] n
| reaches_step es seg c q n' :
    (seg, c) ∈ es → reaches c q n' → reaches (FS.Dir es) (seg :: q) n'.

(** The units the run locates in one tier, each with its tier: none when
    the directory of the tier does not exist. *)
Definition tier_units (d : FS.disk) (level : string) : list (string * FS.Path) :=
  let level_path := AtomicDesignAnalyzer.components_path ++ [level] in
  if FS.exists_ d level_path
  then (λ unit_path, (level, unit_path))
       <$> AtomicDesignAnalyzer._find_component_dirs d level_path
  else [].

(** The units the run locates, tier by tier. *)
Definition located_units (d : FS.disk) : list (string * FS.Path) :=
  tier_units d "atoms" ++ tier_units d "molecules" ++ tier_units d "organisms".

(** From [r] to [r'], [n] units were counted: [components_found] grew by
    [n], the two other counters by at most [n]. *)
Definition counted (n : Z) (r r' : AnalysisReport) : Prop :=
  components_found r' = components_found r + n
  ∧ components_with_tests r ≤ components_with_tests r'
      ≤ components_with_tests r + n
  ∧ components_with_barrels r ≤ components_with_barrels r'
      ≤ components_with_barrels r + n.

(** Violations that all have the type [t] and the path [where_]. *)
Definition all_of (t where_ : string) (vs : list Violation) : Prop :=
  Forall (λ v, type v = t ∧ path v = where_) vs.

(** What one entry of a unit contributes to the report: its logic
    violations, then its dependency violations. *)
Definition file_block (src_path : FS.PurePath) (file : FS.Path)
    (vs : list Violation) : Prop :=
  ∃ logic dependency,
    vs = logic ++ dependency
    ∧ all_of "logic" (FS.str src_path file) logic
    ∧ all_of "dependency" (FS.str src_path file) dependency.

(** What one unit contributes: its barrel violations, then its test
    violations, then the blocks of its entries in listing order. *)
Definition unit_block (d : FS.disk) (src_path : FS.PurePath) (unit_path : FS.Path)
    (vs : list Violation) : Prop :=
  ∃ files barrel test blocks,
    FS.iterdir d unit_path = Some files
    ∧ vs = barrel ++ test ++ concat blocks
    ∧ all_of "barrel" (FS.str src_path unit_path) barrel
    ∧ all_of "test" (FS.str src_path unit_path) test
    ∧ Forall2 (file_block src_path) files blocks.

(** Detection order: the structure violations, then the blocks of the
    located units, tier by tier and unit by unit. *)
Definition in_detection_order (d : FS.disk) (src_path : FS.PurePath)
    (vs : list Violation) : Prop :=
  ∃ structure blocks,
    vs = structure ++ concat blocks
    ∧ Forall (λ v, type v = "structure"%string) structure
    ∧ Forall2 (λ located, unit_block d src_path (snd located))
        (located_units d) blocks.

(** The order of the four checks of a unit. *)
Definition check_rank (t : string) : nat :=
  if String.eqb t "barrel" then 0
  else if String.eqb t "test" then 1
  else if String.eqb t "logic" then 2
  else 3.

(** Every violation of an earlier check stands before every violation of a
    later check. *)
Definition in_check_order (vs : list Violation) : Prop :=
  ∀ i j vi vj,
    vs !! i = Some vi → vs !! j = Some vj →
    (check_rank (type vi) < check_rank (type vj))%nat → (i < j)%nat.


(** Every character of [s] satisfies [p]. *)
Fixpoint all_chars (p : ascii → bool) (s : string) : Prop :=
  match s with
  | EmptyString => True
  | String c s' => p c = true ∧ all_chars p s'
  end.

(** The texts a pattern matches from their first to their last character. *)
Fixpoint denotes (r : Re.regex) (s : string) : Prop :=
  match r with
  | Re.Lit l => s = l
  | Re.Class k => ∃ c, s = String c EmptyString ∧ Re.matches k c = true
  | Re.Star k => all_chars (Re.matches k) s
  | Re.Plus k => s ≠ EmptyString ∧ all_chars (Re.matches k) s
  | Re.Seq r1 r2 => ∃ s1 s2, s = s1 +:+ s2 ∧ denotes r1 s1 ∧ denotes r2 s2
  | Re.Alt r1 r2 => denotes r1 s ∨ denotes r2 s
  end.

(** [p] is [s] with something in front of it. *)
Definition is_suffix_of (p s : string) : Prop := ∃ pre, s = pre +:+ p.

(** What a method appended to the report [r] to produce [r']. *)
Definition recorded (r r' : AnalysisReport) : list Violation :=
  drop (length (violations r)) (violations r').

(** The three counters of two reports agree. *)
Definition same_counters (r r' : AnalysisReport) : Prop :=
  components_found r' = components_found r ∧
  components_with_tests r' = components_with_tests r ∧
  components_with_barrels r' = components_with_barrels r.

(** A method only appends: what it does to a report is to put behind it
    what it does to the empty report. *)
Definition appends (m : AnalysisReport → AnalysisReport) : Prop :=
  ∀ r, m r = Report.combine r (m Report.empty).

Definition appends_or_raises (m : AnalysisReport → option AnalysisReport) : Prop :=
  ∀ r, m r = Report.combine r <$> m Report.empty.

(** A listing with what its sub-directories hold left out: every
    sub-directory is replaced by an empty one, files are kept. *)
Definition direct_entries (es : list (string * FS.node)) : list (string * FS.node) :=
  map (λ e, (fst e, match snd e with
                    | FS.File content => FS.File content
                    | FS.Dir _ => FS.Dir []
                    end)) es.

(** ** A sample project

    [src/components/atoms/Button/] holds a component that imports from a
    molecule, a component with state and helper functions, a file that
    cannot be read, a test and a barrel; [src/components/atoms/Icon/] holds
    a component with two imports from molecules; [molecules/] holds a unit
    two levels down; [organisms/] is missing. *)

Module Sample.
Import FS.

Definition button_text : string :=
  "import { Card } from '@/components/molecules/Card'".

Definition panel_text : string :=
  "const [a, setA] = useState(0); useEffect(run); const m = useMemo(make);
   async function load() {} async function save() {} async function drop() {}".

Definition two_imports_text : string :=
  "import { Card } from '../molecules/Card'
   import { Form } from '../molecules/Form'".

Definition tree : node :=
  Dir [("components",
        Dir [("atoms",
              Dir [("Button",
                    Dir [("Button.tsx", File (Some button_text));
                         ("Panel.tsx", File (Some panel_text));
                         ("Locked.tsx", File None);
                         ("Button.test.tsx", File (Some ""));
                         ("index.ts", File (Some ""))]);
                   ("Icon", Dir [("Icon.jsx", File (Some two_imports_text))]);
                   ("README.md", File (Some ""))]);
             ("molecules",
              Dir [("forms",
                    Dir [("Field",
                          Dir [("Field.jsx", File (Some "export const Field = 1"))])])])])].

Definition project : disk := Some tree.
Definition src : PurePath := parse "src".
Definition button_unit : Path := ["components"; "atoms"; "Button"].
Definition button_file : Path := button_unit ++ ["Button.tsx"].
Definition panel_file : Path := button_unit ++ ["Panel.tsx"].
Definition locked_file : Path := button_unit ++ ["Locked.tsx"].
Definition button_listing : list Path :=
  [button_file; panel_file; locked_file;
   button_unit ++ ["Button.test.tsx"]; button_unit ++ ["index.ts"]].
Definition icon_unit : Path := ["components"; "atoms"; "Icon"].
Definition icon_file : Path := icon_unit ++ ["Icon.jsx"].

(** Two violations the analysis of the Button unit records. *)
Definition button_dependency : Violation :=
  mkViolation "dependency" "src/components/atoms/Button/Button.tsx"
    "Atoms should not import from molecules" "error".
Definition panel_logic : Violation :=
  mkViolation "logic" "src/components/atoms/Button/Panel.tsx"
    "Component has 3 hooks and 6 functions. Consider extracting logic to a custom hook."
    "warning".

(** The file system as [main] sees it: the project sits at [src]. *)
Definition world (p : string) : disk :=
  if String.eqb p "src" then project else None.

(** A project without a [components/] entry. *)
Definition bare_project : disk := Some (Dir [("README.md", File (Some ""))]).

End Sample.

(** * Properties *)

(** ** Text *)

Section text_facts.

Lemma append_cons (c : ascii) (s t : string) :
  String c s +:+ t = String c (s +:+ t).
Proof. reflexivity. Qed.

Lemma append_nil_l (t : string) : "" +:+ t = t.
Proof. reflexivity. Qed.


Lemma append_assoc (s t u : string) : (s +:+ t) +:+ u = s +:+ (t +:+ u).
Proof. induction s as [|c s IH]; [done | by rewrite !append_cons, IH]. Qed.

Lemma append_inj_l (s a b : string) : s +:+ a = s +:+ b → a = b.
Proof.
  induction s as [|c s IH]; [done |].
  rewrite !append_cons. intros [= H]. auto.
Qed.

Lemma endswith_spec (s p : string) :
  Text.endswith s p = true ↔ is_suffix_of p s.
Proof.
  unfold is_suffix_of. induction s as [|c s IH]; simpl.
  - rewrite orb_false_r, String.eqb_eq. split.
    + intros ->. by exists ""%string.
    + intros [pre H]. destruct pre; [done | discriminate].
  - rewrite orb_true_iff, String.eqb_eq, IH. split.
    + intros [-> | [pre ->]].
      * by exists ""%string.
      * by exists (String c pre).
    + intros [pre H]. destruct pre as [|c' pre].
      * by left.
      * right. rewrite append_cons in H. injection H as -> ->. by exists pre.
Qed.

Lemma concat_snoc (l : list string) (seg : string) :
  String.concat "/" (l ++ [seg]) =
    match l with
    | [] => seg
    | _ => String.concat "/" l +:+ "/" +:+ seg
    end.
Proof.
  induction l as [|x l IH]; [reflexivity |].
  destruct l as [|y l]; [reflexivity |].
  change (String.concat "/" ((x :: y :: l) ++ [seg]))
    with (x +:+ "/" +:+ String.concat "/" ((y :: l) ++ [seg])).
  rewrite IH.
  change (String.concat "/" (x :: y :: l))
    with (x +:+ "/" +:+ String.concat "/" (y :: l)).
  by rewrite !append_assoc.
Qed.

Lemma str_snoc (src : FS.PurePath) (p : FS.Path) (seg : string) :
  FS.str src (p ++ [seg]) =
    FS.anchor src +:+ String.concat "/" ((FS.names src ++ p) ++ [seg]).
Proof.
  unfold FS.str. rewrite app_assoc.
  by destruct (FS.names src ++ p).
Qed.

Lemma str_snoc_inj (src : FS.PurePath) (p : FS.Path) (a b : string) :
  FS.str src (p ++ [a]) = FS.str src (p ++ [b]) → a = b.
Proof.
  rewrite !str_snoc, !concat_snoc. intros H. apply append_inj_l in H.
  destruct (FS.names src ++ p); [exact H |].
  apply append_inj_l in H. by apply (append_inj_l "/") in H.
Qed.

Lemma name_snoc (p : FS.Path) (seg : string) : FS.name (p ++ [seg]) = seg.
Proof. unfold FS.name. by rewrite last_snoc. Qed.

End text_facts.

(** ** Reports under [combine] *)

Section report_facts.

Lemma report_eq (r r' : AnalysisReport) :
  violations r = violations r' →
  components_found r = components_found r' →
  components_with_tests r = components_with_tests r' →
  components_with_barrels r = components_with_barrels r' →
  r = r'.
Proof. destruct r, r'; simpl; congruence. Qed.

Lemma combine_empty_r r : Report.combine r Report.empty = r.
Proof. apply report_eq; simpl; [apply app_nil_r | lia ..]. Qed.

Lemma combine_empty_l r : Report.combine Report.empty r = r.
Proof. apply report_eq; simpl; [done | lia ..]. Qed.

Lemma combine_assoc r s t :
  Report.combine (Report.combine r s) t = Report.combine r (Report.combine s t).
Proof. apply report_eq; simpl; [by rewrite app_assoc | lia ..]. Qed.

Lemma recorded_combine r e : recorded r (Report.combine r e) = violations e.
Proof. unfold recorded. simpl. by rewrite drop_app_length. Qed.

Lemma appends_id : appends (λ r, r).
Proof. intros r. by rewrite combine_empty_r. Qed.

Lemma appends_add v : appends (Report.add v).
Proof. intros r. apply report_eq; simpl; [done | lia ..]. Qed.

Lemma appends_incr_found : appends Report.incr_found.
Proof. intros r. apply report_eq; simpl; [by rewrite app_nil_r | lia ..]. Qed.

Lemma appends_incr_with_tests : appends Report.incr_with_tests.
Proof. intros r. apply report_eq; simpl; [by rewrite app_nil_r | lia ..]. Qed.

Lemma appends_incr_with_barrels : appends Report.incr_with_barrels.
Proof. intros r. apply report_eq; simpl; [by rewrite app_nil_r | lia ..]. Qed.

Lemma appends_compose m1 m2 :
  appends m1 → appends m2 → appends (λ r, m2 (m1 r)).
Proof.
  intros H1 H2 r.
  rewrite (H2 (m1 r)), (H1 r), (H2 (m1 Report.empty)).
  by rewrite combine_assoc.
Qed.

Lemma appends_if (b : bool) m1 m2 :
  appends m1 → appends m2 → appends (λ r, if b then m1 r else m2 r).
Proof. by destruct b. Qed.

Lemma appends_foldl {A} (body : AnalysisReport → A → AnalysisReport) (l : list A) :
  (∀ x, appends (λ r, body r x)) → appends (λ r, foldl body r l).
Proof.
  intros Hbody. induction l as [|x l IH]; simpl.
  - apply appends_id.
  - apply (appends_compose (λ r, body r x) (λ r, foldl body r l)); auto.
Qed.

(** A loop that only appends records the concatenation of what its rounds
    record. *)
Lemma foldl_violations {A} (body : AnalysisReport → A → AnalysisReport) (l : list A) :
  (∀ x, appends (λ r, body r x)) →
  ∀ r, violations (foldl body r l) =
       violations r ++ concat ((λ x, violations (body Report.empty x)) <$> l).
Proof.
  intros Hbody. induction l as [|x l IH]; intros r; simpl.
  - by rewrite app_nil_r.
  - rewrite IH, (Hbody x r). simpl. by rewrite app_assoc.
Qed.

Lemma appends_or_raises_some m : appends m → appends_or_raises (λ r, Some (m r)).
Proof. intros H r. simpl. by rewrite (H r). Qed.

Lemma appends_or_raises_bind m1 m2 :
  appends_or_raises m1 → appends_or_raises m2 →
  appends_or_raises (λ r, match m1 r with Some r' => m2 r' | None => None end).
Proof.
  intros H1 H2 r. rewrite (H1 r).
  destruct (m1 Report.empty) as [e1|]; simpl; [|done].
  rewrite (H2 (Report.combine r e1)), (H2 e1).
  destruct (m2 Report.empty) as [e2|]; simpl; [|done].
  by rewrite combine_assoc.
Qed.

Lemma appends_for_each {A} (body : A → AnalysisReport → option AnalysisReport)
    (l : list A) :
  (∀ x, appends_or_raises (body x)) →
  appends_or_raises (AtomicDesignAnalyzer.for_each body l).
Proof.
  intros Hbody. induction l as [|x l IH]; simpl.
  - apply (appends_or_raises_some (λ r, r)), appends_id.
  - apply (appends_or_raises_bind (body x)); auto.
Qed.

End report_facts.

(** ** Every method of the analyzer only appends to the report *)

Section method_frames.

Import AtomicDesignAnalyzer.

Variable d : FS.disk.
Variable src_path : FS.PurePath.

Lemma appends_check_component_logic file level :
  appends (_check_component_logic d src_path file level).
Proof.
  unfold _check_component_logic.
  destruct (FS.read_text d file) as [content|]; [|apply appends_id].
  apply appends_if; [apply appends_add | apply appends_id].
Qed.

Lemma appends_check_imports file level :
  appends (_check_imports d src_path file level).
Proof.
  unfold _check_imports.
  destruct (FS.read_text d file) as [content|]; [|apply appends_id].
  apply appends_foldl. intros forbidden.
  apply appends_if; [apply appends_add | apply appends_id].
Qed.

Lemma appends_check_file level file :
  appends (λ r, check_file d src_path level r file).
Proof.
  unfold check_file.
  apply appends_if; [|apply appends_id].
  apply appends_if; [|apply appends_id].
  apply (appends_compose (_check_component_logic d src_path file level)
                         (_check_imports d src_path file level)).
  - apply appends_check_component_logic.
  - apply appends_check_imports.
Qed.

Lemma appends_check_top_level_structure :
  appends (_check_top_level_structure d src_path).
Proof.
  unfold _check_top_level_structure.
  apply appends_foldl. intros dir_name.
  apply appends_if; [apply appends_add | apply appends_id].
Qed.

Lemma appends_analyze_component component_path level :
  appends_or_raises (_analyze_component d src_path component_path level).
Proof.
  unfold _analyze_component.
  destruct (FS.iterdir d component_path) as [files|]; [|done].
  apply appends_or_raises_some.
  set (has_barrel := bool_decide (_ ∩ _ ≠ ∅)).
  set (has_test := bool_decide (set_Exists _ _)).
  set (vb := mkViolation "barrel" _ _ _).
  set (vt := mkViolation "test" _ _ _).
  pose (barrel := λ r, if has_barrel then Report.incr_with_barrels r
                       else Report.add vb r).
  pose (test := λ r, if has_test then Report.incr_with_tests r
                     else Report.add vt r).
  pose (loop := λ r, foldl (check_file d src_path level) r files).
  apply (appends_compose Report.incr_found (λ r, loop (test (barrel r))));
    [apply appends_incr_found |].
  apply (appends_compose barrel (λ r, loop (test r))).
  { apply appends_if; [apply appends_incr_with_barrels | apply appends_add]. }
  apply (appends_compose test loop).
  { apply appends_if; [apply appends_incr_with_tests | apply appends_add]. }
  apply appends_foldl, appends_check_file.
Qed.

Lemma appends_analyze_level level :
  appends_or_raises (analyze_level d src_path level).
Proof.
  unfold analyze_level. intros r. destruct (negb _).
  - simpl. by rewrite combine_empty_r.
  - apply appends_for_each. intros component_dir.
    apply appends_analyze_component.
Qed.

Lemma appends_analyze_components :
  appends_or_raises (_analyze_components d src_path).
Proof.
  unfold _analyze_components. apply appends_for_each, appends_analyze_level.
Qed.

End method_frames.

(** ** What each check records *)

Section checks.

Import AtomicDesignAnalyzer.

Variable d : FS.disk.
Variable src_path : FS.PurePath.

Lemma recorded_appends m r : appends m → recorded r (m r) = violations (m Report.empty).
Proof. intros H. rewrite (H r). apply recorded_combine. Qed.

Lemma foldl_add_if {A} (c : A → bool) (v : A → Violation) (l : list A) r :
  violations (foldl (λ r x, if c x then Report.add (v x) r else r) r l)
  = violations r ++ (v <$> List.filter c l).
Proof.
  revert r. induction l as [|x l IH]; intros r; simpl.
  - by rewrite app_nil_r.
  - rewrite IH. destruct (c x); simpl; [by rewrite <- app_assoc | done].
Qed.

Lemma forbidden_imports_get level :
  default [] (forbidden_imports !! level) =
    if decide (level = "atoms"%string) then ["molecules"; "organisms"]%string
    else if decide (level = "molecules"%string) then ["organisms"%string]
    else [].
Proof.
  unfold forbidden_imports.
  destruct (decide (level = "atoms"%string)) as [->|]; [done |].
  destruct (decide (level = "molecules"%string)) as [->|]; [done |].
  destruct (decide (level = "organisms"%string)) as [->|]; [done |].
  by simplify_map_eq.
Qed.

Lemma forbidden_imports_NoDup level :
  NoDup (default [] (forbidden_imports !! level)).
Proof.
  rewrite forbidden_imports_get.
  destruct (decide (level = "atoms"%string)); [|destruct (decide _)].
  - apply NoDup_cons. split; [|apply NoDup_singleton].
    by intros [=]%list_elem_of_singleton.
  - apply NoDup_singleton.
  - apply NoDup_nil_2.
Qed.

Lemma check_component_logic_recorded file level r :
  recorded r (_check_component_logic d src_path file level r) =
    match FS.read_text d file with
    | None => []
    | Some content =>
        let hooks := hook_count content in
        let functions := length (function_matches content) in
        if ((2 <? hooks) && (2 <? functions))%nat
        then [mkViolation "logic" (FS.str src_path file)
                ("Component has " +:+ Text.of_nat hooks +:+ " hooks and "
                 +:+ Text.of_nat functions
                 +:+ " functions. Consider extracting logic to a custom hook.")
                "warning"]
        else []
    end.
Proof.
  rewrite recorded_appends by apply appends_check_component_logic.
  unfold _check_component_logic.
  destruct (FS.read_text d file) as [content|]; [|done].
  simpl. by destruct (_ && _).
Qed.

Lemma check_imports_recorded file level r :
  recorded r (_check_imports d src_path file level r) =
    match FS.read_text d file with
    | None => []
    | Some content =>
        (λ forbidden,
           mkViolation "dependency" (FS.str src_path file)
             (Text.capitalize level +:+ " should not import from " +:+ forbidden)
             "error")
        <$> List.filter (λ forbidden, Re.search (import_pattern forbidden) content)
              (default [] (forbidden_imports !! level))
    end.
Proof.
  rewrite recorded_appends by apply appends_check_imports.
  unfold _check_imports.
  destruct (FS.read_text d file) as [content|]; [|done].
  by rewrite foldl_add_if.
Qed.

Lemma same_counters_refl r : same_counters r r.
Proof. by repeat split. Qed.

Lemma same_counters_trans r1 r2 r3 :
  same_counters r1 r2 → same_counters r2 r3 → same_counters r1 r3.
Proof. unfold same_counters. intros (? & ? & ?) (? & ? & ?). repeat split; congruence. Qed.

Lemma same_counters_add v r : same_counters r (Report.add v r).
Proof. by repeat split. Qed.

Lemma same_counters_foldl {A} (body : AnalysisReport → A → AnalysisReport) l :
  (∀ r x, same_counters r (body r x)) → ∀ r, same_counters r (foldl body r l).
Proof.
  intros Hbody. induction l as [|x l IH]; intros r; simpl.
  - apply same_counters_refl.
  - eapply same_counters_trans; [apply Hbody | apply IH].
Qed.

Lemma same_counters_check_component_logic file level r :
  same_counters r (_check_component_logic d src_path file level r).
Proof.
  unfold _check_component_logic.
  destruct (FS.read_text d file); [|apply same_counters_refl].
  simpl. destruct (_ && _); [apply same_counters_add | apply same_counters_refl].
Qed.

Lemma same_counters_check_imports file level r :
  same_counters r (_check_imports d src_path file level r).
Proof.
  unfold _check_imports.
  destruct (FS.read_text d file); [|apply same_counters_refl].
  apply same_counters_foldl. intros r' forbidden.
  destruct (Re.search _ _); [apply same_counters_add | apply same_counters_refl].
Qed.

Lemma same_counters_check_file level r file :
  same_counters r (check_file d src_path level r file).
Proof.
  unfold check_file.
  destruct (bool_decide _); [|apply same_counters_refl].
  destruct (negb _); [|apply same_counters_refl].
  eapply same_counters_trans;
    [apply same_counters_check_component_logic | apply same_counters_check_imports].
Qed.

(** What the loop body records for one entry of the unit. *)
Lemma check_file_recorded level r file :
  recorded r (check_file d src_path level r file) =
    if bool_decide (FS.suffix file ∈ COMPONENT_EXTENSIONS)
       && negb (endswith_any (FS.name file) TEST_PATTERNS)
    then recorded r (_check_component_logic d src_path file level r)
         ++ recorded r (_check_imports d src_path file level r)
    else [].
Proof.
  rewrite (recorded_appends (λ r, check_file d src_path level r file))
    by apply appends_check_file.
  rewrite (recorded_appends (_check_component_logic d src_path file level))
    by apply appends_check_component_logic.
  rewrite (recorded_appends (_check_imports d src_path file level))
    by apply appends_check_imports.
  unfold check_file.
  destruct (bool_decide _); [|done].
  destruct (negb _); [|done]. simpl.
  rewrite (appends_check_imports d src_path file level
             (_check_component_logic d src_path file level Report.empty)).
  done.
Qed.

(** What the analysis of one unit records and counts. *)
Lemma analyze_component_spec unit level r files :
  FS.iterdir d unit = Some files →
  let file_names : gset string :=
    list_to_set (FS.name <$> List.filter (FS.is_file d) files) in
  let has_barrel := bool_decide (file_names ∩ BARREL_FILES ≠ ∅) in
  let has_test :=
    bool_decide (set_Exists (λ f, endswith_any f TEST_PATTERNS = true) file_names) in
  ∃ r', _analyze_component d src_path unit level r = Some r' ∧
    recorded r r' =
      (if has_barrel then []
       else [mkViolation "barrel" (FS.str src_path unit)
               "Missing barrel file (index.ts)" "warning"])
      ++ (if has_test then []
          else [mkViolation "test" (FS.str src_path unit)
                  "Missing test file" "warning"])
      ++ concat ((λ file, recorded Report.empty
                            (check_file d src_path level Report.empty file))
                 <$> files) ∧
    components_found r' = components_found r + 1 ∧
    components_with_barrels r' =
      components_with_barrels r + (if has_barrel then 1 else 0) ∧
    components_with_tests r' =
      components_with_tests r + (if has_test then 1 else 0).
Proof.
  intros Hfiles file_names has_barrel has_test.
  unfold _analyze_component. rewrite Hfiles.
  fold file_names. fold has_barrel. fold has_test.
  eexists. split; [reflexivity |].
  match goal with |- context [foldl _ ?r0 files] => set (start := r0) end.
  pose proof (same_counters_foldl (check_file d src_path level) files
                (same_counters_check_file level) start) as (Hf & Ht & Hb).
  split; [|rewrite Hf, Hb, Ht; subst start;
           destruct has_barrel, has_test; simpl; repeat split; lia].
  unfold recorded.
  rewrite (foldl_violations (check_file d src_path level) files
             (appends_check_file d src_path level)).
  subst start. destruct has_barrel, has_test; simpl;
    rewrite <- ?app_assoc, drop_app_length; done.
Qed.

End checks.

(** ** Membership in what a unit records *)

Section unit_membership.

Import AtomicDesignAnalyzer.

Variable d : FS.disk.
Variable src_path : FS.PurePath.

Lemma elem_of_concat {A} (x : A) (ls : list (list A)) :
  x ∈ concat ls ↔ ∃ l, l ∈ ls ∧ x ∈ l.
Proof.
  induction ls as [|l ls IH]; simpl.
  - rewrite elem_of_nil. split; [done | intros (l & Hl & _); by apply elem_of_nil in Hl].
  - rewrite elem_of_app, IH. split.
    + intros [H | (l' & Hl' & Hx)].
      * exists l. split; [apply elem_of_cons; by left | done].
      * exists l'. split; [apply elem_of_cons; by right | done].
    + intros (l' & Hl' & Hx). apply elem_of_cons in Hl' as [-> | Hl'].
      * by left.
      * right. by exists l'.
Qed.

Lemma elem_of_if_nil {A} (b : bool) (x v : A) :
  v ∈ (if b then [] else [x]) ↔ v = x ∧ b = false.
Proof.
  destruct b.
  - rewrite elem_of_nil. split; [intros [] | intros [_ [=]]].
  - rewrite list_elem_of_singleton. split; [by intros -> | by intros [-> _]].
Qed.

Lemma iterdir_elem unit files file :
  FS.iterdir d unit = Some files → file ∈ files → ∃ seg, file = unit ++ [seg].
Proof.
  unfold FS.iterdir. intros H Hin.
  destruct (FS.resolve d unit) as [[c|es]|]; try done.
  injection H as <-.
  apply list_elem_of_In, in_map_iff in Hin as (e & <- & _). by exists (fst e).
Qed.

(** The entries of one listing are told apart by their rendered paths. *)
Lemma iterdir_str_inj unit files file file' :
  FS.iterdir d unit = Some files → file ∈ files → file' ∈ files →
  FS.str src_path file = FS.str src_path file' → file = file'.
Proof.
  intros H Hin Hin' Heq.
  destruct (iterdir_elem unit files file H Hin) as [seg ->].
  destruct (iterdir_elem unit files file' H Hin') as [seg' ->].
  by rewrite (str_snoc_inj _ _ _ _ Heq).
Qed.

Lemma check_component_logic_recorded_elem file level r v :
  v ∈ recorded r (_check_component_logic d src_path file level r) →
  type v = "logic"%string ∧ path v = FS.str src_path file.
Proof.
  rewrite check_component_logic_recorded.
  destruct (FS.read_text d file) as [content|]; simpl; [|by intros ?%elem_of_nil].
  destruct (_ && _); [|by intros ?%elem_of_nil].
  by intros ->%list_elem_of_singleton.
Qed.

Lemma check_imports_recorded_elem file level r v :
  v ∈ recorded r (_check_imports d src_path file level r) ↔
  ∃ content forbidden,
    FS.read_text d file = Some content ∧
    forbidden ∈ default [] (forbidden_imports !! level) ∧
    Re.search (import_pattern forbidden) content = true ∧
    v = mkViolation "dependency" (FS.str src_path file)
          (Text.capitalize level +:+ " should not import from " +:+ forbidden)
          "error".
Proof.
  rewrite check_imports_recorded.
  destruct (FS.read_text d file) as [content|].
  - rewrite list_elem_of_fmap. split.
    + intros (forbidden & -> & Hin).
      apply list_elem_of_In, filter_In in Hin as [Hin Hs].
      exists content, forbidden. by rewrite list_elem_of_In.
    + intros (content' & forbidden & [= <-] & Hin & Hs & ->).
      exists forbidden. split; [done |].
      apply list_elem_of_In, filter_In. by rewrite <- list_elem_of_In.
  - split; [by intros ?%elem_of_nil | by intros (? & ? & ? & _)].
Qed.

(** A violation recorded for a unit is its barrel warning, its test warning,
    or comes from one of the two checks run on a file that passed the
    filter of the loop. *)
Lemma analyze_component_recorded_elem unit level r r' files v :
  FS.iterdir d unit = Some files →
  _analyze_component d src_path unit level r = Some r' →
  v ∈ recorded r r' ↔
    (v = mkViolation "barrel" (FS.str src_path unit)
           "Missing barrel file (index.ts)" "warning" ∧
     (list_to_set (FS.name <$> List.filter (FS.is_file d) files) : gset string)
       ∩ BARREL_FILES = ∅)
    ∨ (v = mkViolation "test" (FS.str src_path unit) "Missing test file" "warning" ∧
       ¬ set_Exists (λ f, endswith_any f TEST_PATTERNS = true)
           (list_to_set (FS.name <$> List.filter (FS.is_file d) files) : gset string))
    ∨ ∃ file, file ∈ files ∧
         FS.suffix file ∈ COMPONENT_EXTENSIONS ∧
         endswith_any (FS.name file) TEST_PATTERNS = false ∧
         (v ∈ recorded Report.empty
                (_check_component_logic d src_path file level Report.empty) ∨
          v ∈ recorded Report.empty
                (_check_imports d src_path file level Report.empty)).
Proof.
  intros Hfiles Hrun.
  destruct (analyze_component_spec d src_path unit level r files Hfiles)
    as (r'' & Hrun' & Hrec & _).
  rewrite Hrun in Hrun'. injection Hrun' as <-.
  rewrite Hrec, !elem_of_app, elem_of_concat, !elem_of_if_nil.
  set (file_names := list_to_set (FS.name <$> List.filter (FS.is_file d) files) : gset string).
  assert (Hbarrel : bool_decide (file_names ∩ BARREL_FILES ≠ ∅) = false
                    ↔ file_names ∩ BARREL_FILES = ∅).
  { rewrite bool_decide_eq_false. split; [apply dec_stable | intros H Hne; by apply Hne]. }
  assert (Htest :
    bool_decide (set_Exists (λ f, endswith_any f TEST_PATTERNS = true) file_names) = false
    ↔ ¬ set_Exists (λ f, endswith_any f TEST_PATTERNS = true) file_names)
    by apply bool_decide_eq_false.
  enough (Hfiles' : (∃ l, l ∈ (λ file, recorded Report.empty
                              (check_file d src_path level Report.empty file)) <$> files
                        ∧ v ∈ l) ↔
                    ∃ file, file ∈ files ∧
                      FS.suffix file ∈ COMPONENT_EXTENSIONS ∧
                      endswith_any (FS.name file) TEST_PATTERNS = false ∧
                      (v ∈ recorded Report.empty
                             (_check_component_logic d src_path file level Report.empty) ∨
                       v ∈ recorded Report.empty
                             (_check_imports d src_path file level Report.empty))).
  { split.
    - intros [[? ?] | [[? ?] | ?]].
      + left. split; [done | by apply Hbarrel].
      + right; left. split; [done | by apply Htest].
      + right; right. by apply Hfiles'.
    - intros [[? ?] | [[? ?] | ?]].
      + left. split; [done | by apply Hbarrel].
      + right; left. split; [done | by apply Htest].
      + right; right. by apply Hfiles'. }
  split.
  - intros (l & Hl & Hv).
    apply list_elem_of_fmap in Hl as (file & -> & Hfile).
    rewrite check_file_recorded in Hv.
    destruct (bool_decide_reflect (FS.suffix file ∈ COMPONENT_EXTENSIONS)) as [Hs|];
      cbn [andb] in Hv; [|destruct (proj1 (elem_of_nil _) Hv)].
    destruct (endswith_any (FS.name file) TEST_PATTERNS) eqn:Ht;
      cbn [negb] in Hv; [destruct (proj1 (elem_of_nil _) Hv) |].
    apply elem_of_app in Hv. exists file. auto.
  - intros (file & Hfile & Hs & Ht & Hv).
    eexists. split; [apply list_elem_of_fmap; exists file; split; [reflexivity | exact Hfile] |].
    rewrite check_file_recorded, Ht, (bool_decide_eq_true_2 _ Hs).
    cbn [andb negb]. apply elem_of_app. exact Hv.
Qed.

End unit_membership.

(** ** The types of the violations a unit's files contribute *)

Section file_violation_types.

Import AtomicDesignAnalyzer.

Variable d : FS.disk.
Variable src_path : FS.PurePath.

Lemma NoDup_list_filter {A} (c : A → bool) (l : list A) :
  NoDup l → NoDup (List.filter c l).
Proof.
  induction 1 as [|x l Hx Hl IH]; simpl; [constructor |].
  destruct (c x); [|exact IH].
  constructor; [|exact IH].
  intros Hin. apply Hx.
  apply list_elem_of_In, filter_In in Hin as [Hin _]. by apply list_elem_of_In.
Qed.

Lemma filter_none {A} (P : A → Prop) `{∀ x, Decision (P x)} (l : list A) :
  (∀ x, x ∈ l → ¬ P x) → filter P l = [].
Proof.
  induction l as [|x l IH]; intros Hl; [done |].
  rewrite filter_cons_False by (apply Hl, elem_of_cons; by left).
  apply IH. intros y Hy. apply Hl, elem_of_cons. by right.
Qed.

Lemma check_file_recorded_type level file v :
  v ∈ recorded Report.empty (check_file d src_path level Report.empty file) →
  (type v = "logic"%string ∨ type v = "dependency"%string)
  ∧ path v = FS.str src_path file.
Proof.
  rewrite check_file_recorded.
  destruct (_ && _); [|intros Hv; destruct (proj1 (elem_of_nil _) Hv)].
  intros [Hv | Hv]%elem_of_app.
  - apply check_component_logic_recorded_elem in Hv as [-> ->]. auto.
  - apply check_imports_recorded_elem in Hv as (c & f & _ & _ & _ & ->). auto.
Qed.

Lemma files_recorded_type level files v :
  v ∈ concat ((λ file, recorded Report.empty
                         (check_file d src_path level Report.empty file)) <$> files) →
  type v = "logic"%string ∨ type v = "dependency"%string.
Proof.
  intros (l & Hl & Hv)%elem_of_concat.
  apply list_elem_of_fmap in Hl as (file & -> & _).
  by apply check_file_recorded_type in Hv as [? _].
Qed.

End file_violation_types.

(** ** The walk *)

Section walk_facts.

Import FS AtomicDesignAnalyzer.

Lemma node_nested_ind (P : node → Prop) :
  (∀ content, P (File content)) →
  (∀ es, Forall (λ e, P (snd e)) es → P (Dir es)) →
  ∀ n, P n.
Proof.
  intros HFile HDir. fix IH 1. intros [content | es].
  - apply HFile.
  - apply HDir. induction es as [|e es IHes]; constructor; [apply IH | exact IHes].
Qed.

Lemma walk_node_Dir root es :
  walk_node root (Dir es) =
    (root, dirnames es, filenames es)
    :: concat ((λ e, walk_node (root ++ [fst e]) (snd e)) <$> es).
Proof.
  simpl. f_equal. induction es as [|e es IH]; [reflexivity |].
  rewrite fmap_cons. simpl. by rewrite IH.
Qed.

(** The walk yields one triple per directory below the top. *)
Lemma elem_of_walk_node n : ∀ root t,
  t ∈ walk_node root n ↔
  ∃ q es, reaches n q (Dir es) ∧ t = (root ++ q, dirnames es, filenames es).
Proof.
  induction n as [content | es IH] using node_nested_ind; intros root t.
  - simpl. rewrite elem_of_nil. split; [intros [] |].
    intros (q & es & Hreach & _). inversion Hreach.
  - rewrite walk_node_Dir, elem_of_cons, elem_of_concat. split.
    + intros [-> | (l & Hl & Ht)].
      * exists [], es. rewrite app_nil_r. split; [constructor | reflexivity].
      * apply list_elem_of_fmap in Hl as (e & -> & He).
        rewrite Forall_forall in IH.
        apply (IH e He) in Ht as (q & es' & Hreach & ->).
        exists (fst e :: q), es'. split.
        -- apply reaches_step with (snd e); [by destruct e | exact Hreach].
        -- by rewrite <- app_assoc.
    + intros (q & es' & Hreach & ->).
      inversion Hreach as [| es0 seg c q' n' Hin Hreach']; subst.
      * left. by rewrite app_nil_r.
      * right. exists (walk_node (root ++ [seg]) c). split.
        -- apply list_elem_of_fmap. by exists (seg, c).
        -- rewrite Forall_forall in IH.
           apply (IH (seg, c) Hin). exists q', es'.
           split; [exact Hreach' |]. by rewrite <- app_assoc.
Qed.

Lemma child_Some seg es c : child seg es = Some c → (seg, c) ∈ es.
Proof.
  unfold child. intros H.
  destruct (List.find _ es) as [[seg' c']|] eqn:Hfind; [|discriminate H].
  injection H as ->.
  apply find_some in Hfind as [Hin Heq]. simpl in Heq.
  apply String.eqb_eq in Heq as ->. by apply list_elem_of_In.
Qed.

(** With pairwise distinct names, a listed entry is the one its name
    denotes. *)
Lemma child_of_NoDup seg es c :
  NoDup (fst <$> es) → (seg, c) ∈ es → child seg es = Some c.
Proof.
  unfold child. induction es as [|[seg' c'] es IH]; intros Hnd Hin.
  - by apply elem_of_nil in Hin.
  - rewrite fmap_cons in Hnd. apply NoDup_cons in Hnd as [Hfresh Hnd].
    simpl. apply elem_of_cons in Hin as [[= <- <-] | Hin].
    + by rewrite String.eqb_refl.
    + destruct (String.eqb_spec seg' seg) as [-> | _]; [|by apply IH].
      exfalso. apply Hfresh. simpl.
      apply list_elem_of_fmap. by exists (seg, c).
Qed.

Lemma lookup_reaches n : ∀ q n', lookup n q = Some n' → reaches n q n'.
Proof.
  intros q. revert n. induction q as [|seg q IH]; intros n n' H; simpl in H.
  - injection H as ->. constructor.
  - destruct n as [content | es]; [discriminate H |].
    destruct (child seg es) as [c|] eqn:Hchild; [|discriminate H].
    apply reaches_step with c; [by apply child_Some | by apply IH].
Qed.

Lemma well_formed_Dir es :
  well_formed (Dir es) = true ↔
  NoDup (fst <$> es) ∧ ∀ e, e ∈ es → well_formed (snd e) = true.
Proof.
  simpl. rewrite andb_true_iff, bool_decide_eq_true, forallb_forall.
  split; intros [? H]; (split; [done |]); intros e He; apply H;
    by apply list_elem_of_In.
Qed.

Lemma reaches_lookup n q n' :
  well_formed n = true → reaches n q n' → lookup n q = Some n'.
Proof.
  intros Hwf Hreach. induction Hreach as [n | es seg c q n' Hin Hreach IH].
  - reflexivity.
  - apply well_formed_Dir in Hwf as [Hnd Hwf]. simpl.
    rewrite (child_of_NoDup seg es c Hnd Hin). apply IH, (Hwf (seg, c) Hin).
Qed.

Lemma reaches_well_formed n q n' :
  well_formed n = true → reaches n q n' → well_formed n' = true.
Proof.
  intros Hwf Hreach. induction Hreach as [n | es seg c q n' Hin Hreach IH].
  - exact Hwf.
  - apply well_formed_Dir in Hwf as [_ Hwf]. apply IH, (Hwf (seg, c) Hin).
Qed.

Lemma lookup_app n p q :
  lookup n (p ++ q) = match lookup n p with Some m => lookup m q | None => None end.
Proof.
  revert n. induction p as [|seg p IH]; intros n; simpl; [reflexivity |].
  destruct n as [content | es]; [reflexivity |].
  destruct (child seg es) as [c|]; [apply IH | reflexivity].
Qed.

Lemma resolve_app d p q :
  resolve d (p ++ q) =
    match resolve d p with Some m => lookup m q | None => None end.
Proof. destruct d as [n|]; simpl; [apply lookup_app | reflexivity]. Qed.

Lemma resolve_well_formed d p n :
  well_formed_disk d = true → resolve d p = Some n → well_formed n = true.
Proof.
  destruct d as [root|]; simpl; [|discriminate].
  intros Hwf H. eapply reaches_well_formed; [exact Hwf | by apply lookup_reaches].
Qed.

End walk_facts.

(** ** The locator *)

Section locator_facts.

Import FS AtomicDesignAnalyzer.

Lemma endswith_any_spec f (patterns : gset string) :
  endswith_any f patterns = true ↔ ∃ p, p ∈ patterns ∧ is_suffix_of p f.
Proof.
  unfold endswith_any. rewrite bool_decide_eq_true. unfold set_Exists.
  split; intros (p & Hp & H); exists p; (split; [exact Hp |]);
    by apply endswith_spec.
Qed.

Lemma is_component_name_spec f :
  is_component_name f = true ↔
  (∃ ext, ext ∈ COMPONENT_EXTENSIONS ∧ is_suffix_of ext f)
  ∧ ∀ p, p ∈ TEST_PATTERNS → ¬ is_suffix_of p f.
Proof.
  unfold is_component_name.
  rewrite andb_true_iff, negb_true_iff, <- not_true_iff_false, !endswith_any_spec.
  split; intros [Hext Htest]; (split; [exact Hext |]).
  - intros p Hp Hsuf. apply Htest. by exists p.
  - intros (p & Hp & Hsuf). by apply (Htest p).
Qed.

Lemma elem_of_filenames f es :
  f ∈ filenames es ↔ ∃ content, (f, File content) ∈ es.
Proof.
  unfold filenames. rewrite list_elem_of_fmap. split.
  - intros ([f' n] & -> & Hin).
    apply list_elem_of_In, filter_In in Hin as [Hin Hfile]. simpl in *.
    destruct n as [content|]; [|discriminate Hfile].
    exists content. by apply list_elem_of_In.
  - intros (content & Hin). exists (f, File content). split; [reflexivity |].
    apply list_elem_of_In, filter_In. split; [by apply list_elem_of_In | reflexivity].
Qed.

Lemma find_component_dirs_walk d base_path :
  _find_component_dirs d base_path =
    (λ t, fst (fst t))
    <$> List.filter (λ t, existsb is_component_name (snd t)) (walk d base_path).
Proof.
  unfold _find_component_dirs.
  enough (∀ l acc,
            foldl (λ component_dirs '(root, dirs, files),
                     if existsb is_component_name files
                     then component_dirs ++ [root] else component_dirs) acc l
            = acc ++ ((λ t : Path * list string * list string, fst (fst t))
                      <$> List.filter (λ t, existsb is_component_name (snd t)) l))
    as H by apply (H _ []).
  induction l as [|[[root dirs] files] l IH]; intros acc; simpl.
  - by rewrite app_nil_r.
  - rewrite IH. destruct (existsb is_component_name files); simpl;
      [by rewrite <- app_assoc | reflexivity].
Qed.

(** The located directories of a well-formed disk: those at or below the
    base path that list a file with a component name. *)
Lemma elem_of_find_component_dirs d base_path p :
  well_formed_disk d = true →
  p ∈ _find_component_dirs d base_path ↔
  ∃ q es, p = base_path ++ q
          ∧ resolve d p = Some (Dir es)
          ∧ ∃ f content, (f, File content) ∈ es ∧ is_component_name f = true.
Proof.
  intros Hwf. rewrite find_component_dirs_walk, list_elem_of_fmap.
  assert (Hany : ∀ es, existsb is_component_name (filenames es) = true ↔
                       ∃ f content, (f, File content) ∈ es ∧ is_component_name f = true).
  { intros es. rewrite existsb_exists. split.
    - intros (f & Hin & Hf). apply list_elem_of_In, elem_of_filenames in Hin as [c Hin].
      exists f, c. split; assumption.
    - intros (f & c & Hin & Hf). exists f. split; [|exact Hf].
      apply list_elem_of_In, elem_of_filenames. exists c. exact Hin. }
  unfold walk. split.
  - intros (t & -> & Hin).
    apply list_elem_of_In, filter_In in Hin as [Hin Hcomp].
    destruct (resolve d base_path) as [n|] eqn:Hbase; [|destruct Hin].
    apply list_elem_of_In, elem_of_walk_node in Hin as (q & es & Hreach & ->).
    simpl in Hcomp. exists q, es. split; [reflexivity |].
    split; [|apply Hany; exact Hcomp].
    simpl. rewrite resolve_app, Hbase. apply reaches_lookup; [|exact Hreach].
    apply (resolve_well_formed d base_path); assumption.
  - intros (q & es & -> & Hres & Hcomp).
    rewrite resolve_app in Hres.
    destruct (resolve d base_path) as [n|] eqn:Hbase; [|discriminate Hres].
    exists (base_path ++ q, dirnames es, filenames es). split; [reflexivity |].
    apply list_elem_of_In, filter_In. split; [|apply Hany; exact Hcomp].
    apply list_elem_of_In, elem_of_walk_node. exists q, es.
    split; [apply lookup_reaches; exact Hres | reflexivity].
Qed.

Lemma find_component_dirs_missing d base_path :
  resolve d base_path = None → _find_component_dirs d base_path = [].
Proof.
  intros H. rewrite find_component_dirs_walk. unfold walk. by rewrite H.
Qed.

(** A located directory can be listed. *)
Lemma find_component_dirs_iterdir d base_path p :
  well_formed_disk d = true →
  p ∈ _find_component_dirs d base_path → is_Some (iterdir d p).
Proof.
  intros Hwf (q & es & _ & Hres & _)%elem_of_find_component_dirs; [|exact Hwf].
  unfold iterdir. rewrite Hres. by eexists.
Qed.

End locator_facts.

(** ** Loops over tiers and units *)

Section run_facts.

Import FS AtomicDesignAnalyzer.

Variable d : disk.
Variable src_path : FS.PurePath.

Lemma counted_refl r : counted 0 r r.
Proof. unfold counted. lia. Qed.

Lemma counted_trans n m r1 r2 r3 :
  0 ≤ n → 0 ≤ m → counted n r1 r2 → counted m r2 r3 → counted (n + m) r1 r3.
Proof. unfold counted. lia. Qed.

Lemma counted_same n r r1 r2 : same_counters r1 r2 → counted n r r1 → counted n r r2.
Proof. unfold counted, same_counters. lia. Qed.

Lemma analyze_component_iterdir unit_path level r r' :
  _analyze_component d src_path unit_path level r = Some r' →
  ∃ files, iterdir d unit_path = Some files.
Proof.
  unfold _analyze_component.
  destruct (iterdir d unit_path) as [files|]; [by exists files | discriminate].
Qed.

(** One unit: [components_found] grows by one, the others by at most one. *)
Lemma analyze_component_counted unit_path level r r' :
  _analyze_component d src_path unit_path level r = Some r' → counted 1 r r'.
Proof.
  intros Hrun.
  destruct (analyze_component_iterdir _ _ _ _ Hrun) as [files Hfiles].
  destruct (analyze_component_spec d src_path unit_path level r files Hfiles)
    as (r'' & Hrun' & _ & Hf & Hb & Ht).
  rewrite Hrun in Hrun'. injection Hrun' as <-.
  unfold counted. rewrite Hf, Hb, Ht.
  destruct (bool_decide _), (bool_decide _); lia.
Qed.

Lemma for_each_counted {A} (body : A → AnalysisReport → option AnalysisReport) l :
  (∀ x r r', body x r = Some r' → counted 1 r r') →
  ∀ r r', for_each body l r = Some r' → counted (Z.of_nat (length l)) r r'.
Proof.
  intros Hbody. induction l as [|x l IH]; intros r r' Hrun; simpl in Hrun.
  - injection Hrun as <-. apply counted_refl.
  - destruct (body x r) as [r1|] eqn:Hx; [|discriminate Hrun].
    replace (Z.of_nat (length (x :: l))) with (1 + Z.of_nat (length l))
      by (simpl; lia).
    apply counted_trans with r1; [lia | lia | exact (Hbody x r r1 Hx) | by apply IH].
Qed.

Lemma for_each_is_Some {A} (body : A → AnalysisReport → option AnalysisReport) l :
  (∀ x, x ∈ l → ∀ r, is_Some (body x r)) → ∀ r, is_Some (for_each body l r).
Proof.
  induction l as [|x l IH]; intros Hbody r; simpl; [by eexists |].
  destruct (Hbody x (list_elem_of_here _ _) r) as [r1 ->].
  apply IH. intros y Hy. apply Hbody. by apply list_elem_of_further.
Qed.

(** A loop whose rounds only append records, round by round, what each
    round records on the empty report. *)
Lemma for_each_blocks {A} (body : A → AnalysisReport → option AnalysisReport)
    (block : A → list Violation → Prop) l :
  (∀ x, appends_or_raises (body x)) →
  (∀ x e, body x Report.empty = Some e → block x (violations e)) →
  ∀ e, for_each body l Report.empty = Some e →
       ∃ blocks, violations e = concat blocks ∧ Forall2 block l blocks.
Proof.
  intros Happ Hblock. induction l as [|x l IH]; intros e Hrun; simpl in Hrun.
  - injection Hrun as <-. exists []. split; [reflexivity | constructor].
  - destruct (body x Report.empty) as [e1|] eqn:Hx; [|discriminate Hrun].
    rewrite (appends_for_each body l Happ e1) in Hrun.
    destruct (for_each body l Report.empty) as [e2|] eqn:Hl; [|discriminate Hrun].
    injection Hrun as <-.
    destruct (IH e2 eq_refl) as (blocks & Hv & Hblocks).
    exists (violations e1 :: blocks). simpl. rewrite Hv.
    split; [reflexivity |]. constructor; [by apply Hblock | exact Hblocks].
Qed.

Lemma located_units_missing :
  exists_ d components_path = false → located_units d = [].
Proof.
  unfold exists_. intros H.
  assert (Hlevel : ∀ level, exists_ d (components_path ++ [level]) = false).
  { intros level. unfold exists_. rewrite resolve_app.
    by destruct (resolve d components_path). }
  unfold located_units, tier_units. by rewrite !Hlevel.
Qed.

Lemma all_of_if (b : bool) t where_ v :
  type v = t → path v = where_ → all_of t where_ (if b then [] else [v]).
Proof. intros Ht Hp. destruct b; repeat constructor; assumption. Qed.

(** What one entry of a unit records is a block of logic violations
    followed by dependency violations, all for that entry. *)
Lemma check_file_block level file :
  file_block src_path file
    (recorded Report.empty (check_file d src_path level Report.empty file)).
Proof.
  rewrite check_file_recorded.
  destruct (_ && _).
  - eexists _, _. split; [reflexivity |]. split; apply Forall_forall; intros v Hv.
    + by apply check_component_logic_recorded_elem in Hv.
    + apply check_imports_recorded_elem in Hv as (c & f & _ & _ & _ & ->). by split.
  - exists [], []. split; [reflexivity |]. split; constructor.
Qed.

(** What the analysis of a unit records is the block of that unit. *)
Lemma analyze_component_block unit_path level e :
  _analyze_component d src_path unit_path level Report.empty = Some e →
  unit_block d src_path unit_path (violations e).
Proof.
  intros Hrun.
  destruct (analyze_component_iterdir _ _ _ _ Hrun) as [files Hfiles].
  destruct (analyze_component_spec d src_path unit_path level Report.empty files Hfiles)
    as (e' & Hrun' & Hrec & _).
  rewrite Hrun in Hrun'. injection Hrun' as <-.
  change (recorded Report.empty e) with (violations e) in Hrec.
  exists files. eexists _, _, _.
  split; [exact Hfiles |]. split; [exact Hrec |].
  split; [by apply all_of_if |]. split; [by apply all_of_if |].
  apply Forall2_fmap_r, Forall_Forall2_diag, Forall_forall.
  intros file _. apply check_file_block.
Qed.

Lemma analyze_level_counted level r r' :
  analyze_level d src_path level r = Some r' →
  counted (Z.of_nat (length (tier_units d level))) r r'.
Proof.
  unfold analyze_level, tier_units.
  destruct (exists_ d (components_path ++ [level])); simpl.
  - rewrite length_fmap. apply for_each_counted.
    intros unit_path. apply analyze_component_counted.
  - intros [= <-]. apply counted_refl.
Qed.

Lemma analyze_level_blocks level e :
  analyze_level d src_path level Report.empty = Some e →
  ∃ blocks, violations e = concat blocks
            ∧ Forall2 (λ located, unit_block d src_path (snd located))
                (tier_units d level) blocks.
Proof.
  unfold analyze_level, tier_units.
  destruct (exists_ d (components_path ++ [level])); simpl.
  - intros Hrun.
    apply (for_each_blocks _ (unit_block d src_path)) in Hrun
      as (blocks & Hv & Hblocks).
    + exists blocks. split; [exact Hv |]. by apply Forall2_fmap_l.
    + intros unit_path. apply appends_analyze_component.
    + intros unit_path e'. apply analyze_component_block.
  - intros [= <-]. exists []. split; [reflexivity | constructor].
Qed.

Lemma analyze_level_is_Some level r :
  well_formed_disk d = true → is_Some (analyze_level d src_path level r).
Proof.
  intros Hwf. unfold analyze_level. destruct (negb _); [by eexists |].
  apply for_each_is_Some. intros unit_path Hunit r0.
  destruct (find_component_dirs_iterdir d _ unit_path Hwf Hunit) as [files Hfiles].
  destruct (analyze_component_spec d src_path unit_path level r0 files Hfiles)
    as (r' & -> & _).
  by eexists.
Qed.

Lemma check_top_level_structure_violations :
  Forall (λ v, type v = "structure"%string)
    (violations (_check_top_level_structure d src_path Report.empty)).
Proof.
  unfold _check_top_level_structure. rewrite foldl_add_if. simpl.
  apply Forall_fmap, Forall_forall. by intros dir_name _.
Qed.

Lemma same_counters_check_top_level_structure r :
  same_counters r (_check_top_level_structure d src_path r).
Proof.
  unfold _check_top_level_structure. apply same_counters_foldl.
  intros r' dir_name. destruct (negb _);
    [apply same_counters_add | apply same_counters_refl].
Qed.

Lemma analyze_components_counted r r' :
  _analyze_components d src_path r = Some r' →
  counted (Z.of_nat (length (located_units d))) r r'.
Proof.
  unfold _analyze_components, located_units. simpl. intros Hrun.
  destruct (analyze_level d src_path "atoms" r) as [r1|] eqn:H1;
    [|discriminate Hrun].
  destruct (analyze_level d src_path "molecules" r1) as [r2|] eqn:H2;
    [|discriminate Hrun].
  destruct (analyze_level d src_path "organisms" r2) as [r3|] eqn:H3;
    [|discriminate Hrun].
  injection Hrun as <-.
  apply analyze_level_counted in H1, H2, H3.
  rewrite !length_app. unfold counted in *. lia.
Qed.

Lemma analyze_components_blocks e :
  _analyze_components d src_path Report.empty = Some e →
  ∃ blocks, violations e = concat blocks
            ∧ Forall2 (λ located, unit_block d src_path (snd located))
                (located_units d) blocks.
Proof.
  unfold _analyze_components. intros Hrun.
  apply (for_each_blocks _
           (λ level vs, ∃ blocks, vs = concat blocks
              ∧ Forall2 (λ located, unit_block d src_path (snd located))
                  (tier_units d level) blocks)) in Hrun
    as (tiers & Hv & Htiers).
  - apply Forall2_cons_inv_l in Htiers as (b1 & t1 & (bs1 & -> & H1) & Htiers & ->).
    apply Forall2_cons_inv_l in Htiers as (b2 & t2 & (bs2 & -> & H2) & Htiers & ->).
    apply Forall2_cons_inv_l in Htiers as (b3 & t3 & (bs3 & -> & H3) & Htiers & ->).
    apply Forall2_nil_inv_l in Htiers as ->.
    exists (bs1 ++ bs2 ++ bs3). split.
    + rewrite Hv. simpl. by rewrite app_nil_r, !concat_app.
    + unfold located_units. by repeat apply Forall2_app.
  - apply appends_analyze_level.
  - intros level e'. apply analyze_level_blocks.
Qed.

Lemma analyze_components_is_Some r :
  well_formed_disk d = true → is_Some (_analyze_components d src_path r).
Proof.
  intros Hwf. apply for_each_is_Some. intros level _ r0.
  by apply analyze_level_is_Some.
Qed.

(** On a disk whose directories list each name once the analysis raises
    nothing. *)
Lemma analyze_is_Some :
  well_formed_disk d = true → is_Some (analyze d src_path).
Proof.
  intros Hwf. unfold analyze. destruct (negb _); [by eexists |].
  by apply analyze_components_is_Some.
Qed.

End run_facts.

(** * The claims *)

Import FS AtomicDesignAnalyzer.

(** ** C1: the dependency-direction check *)

(** C1.  The tiers a tier must not import from are: molecules and organisms
    for atoms, organisms for molecules, none for organisms.  Run on a file
    whose text [content] can be read, [_check_imports] records, for every
    tier [forbidden] that is forbidden for [level], the error violation of
    type dependency for the file whose message names the capitalized
    [level] and [forbidden] if and only if [content] matches the import
    pattern of [forbidden], and it records nothing else.  In the analysis
    of a unit the check is run on every entry [file] that passes the
    filter of the loop (its suffix is a component extension, its name ends
    with no test pattern): the analysis returns a report, in which that
    violation is recorded if [content] matches and is not recorded if it
    does not; every dependency violation recorded for [file] is one of
    these, so that a file without a match has none. *)
Theorem dependency_direction_check :
  (default [] (forbidden_imports !! "atoms"%string) = ["molecules"; "organisms"]%string
   ∧ default [] (forbidden_imports !! "molecules"%string) = ["organisms"%string]
   ∧ default [] (forbidden_imports !! "organisms"%string) = []
   ∧ Text.capitalize "atoms" = "Atoms"%string
   ∧ Text.capitalize "molecules" = "Molecules"%string)
  ∧ (∀ (d : disk) (src_path : FS.PurePath) (file : Path) (level : string)
       (r : AnalysisReport) (content : string),
     read_text d file = Some content →
     let recorded_here := recorded r (_check_imports d src_path file level r) in
     (∀ forbidden,
        forbidden ∈ default [] (forbidden_imports !! level) →
        Re.search (import_pattern forbidden) content = true
        ↔ mkViolation "dependency" (str src_path file)
            (Text.capitalize level +:+ " should not import from " +:+ forbidden)
            "error" ∈ recorded_here)
     ∧ (∀ v, v ∈ recorded_here →
          type v = "dependency"%string ∧ severity v = "error"%string
          ∧ path v = str src_path file))
  ∧ ∀ (d : disk) (src_path : FS.PurePath) (unit_path : Path) (level : string)
      (r : AnalysisReport) (files : list Path) (file : Path) (content : string),
    iterdir d unit_path = Some files →
    file ∈ files →
    suffix file ∈ COMPONENT_EXTENSIONS →
    endswith_any (name file) TEST_PATTERNS = false →
    read_text d file = Some content →
    ∃ r', _analyze_component d src_path unit_path level r = Some r'
      ∧ (∀ forbidden,
           forbidden ∈ default [] (forbidden_imports !! level) →
           let v := mkViolation "dependency" (str src_path file)
                      (Text.capitalize level +:+ " should not import from "
                       +:+ forbidden) "error" in
           (Re.search (import_pattern forbidden) content = true → v ∈ recorded r r')
           ∧ (Re.search (import_pattern forbidden) content = false → v ∉ recorded r r'))
      ∧ (∀ v, v ∈ recorded r r' →
           type v = "dependency"%string → path v = str src_path file →
           ∃ forbidden,
             forbidden ∈ default [] (forbidden_imports !! level)
             ∧ Re.search (import_pattern forbidden) content = true
             ∧ severity v = "error"%string
             ∧ message v = Text.capitalize level +:+ " should not import from "
                           +:+ forbidden).
Proof.
  split; [repeat split; reflexivity |]. split.
  { intros d src_path file level r content Hread recorded_here. split.
    - intros forbidden Hforbidden. subst recorded_here.
      rewrite check_imports_recorded_elem. split.
      + intros Hmatch. exists content, forbidden. auto.
      + intros (content' & forbidden' & Hread' & _ & Hmatch & [= Hm]).
        rewrite Hread in Hread'. injection Hread' as <-.
        apply append_inj_l, (append_inj_l " should not import from ") in Hm.
        by subst forbidden'.
    - intros v (? & ? & _ & _ & _ & ->)%check_imports_recorded_elem. auto. }
  intros d src_path unit_path level r files file content Hfiles Hfile Hsuffix Htest Hread.
  destruct (analyze_component_spec d src_path unit_path level r files Hfiles)
    as (r' & Hrun & _).
  exists r'. split; [exact Hrun |].
  pose proof (analyze_component_recorded_elem d src_path unit_path level r r' files)
    as Helem.
  (* a dependency violation recorded for [file] comes from its import check *)
  assert (Hfrom : ∀ v, v ∈ recorded r r' →
            type v = "dependency"%string → path v = str src_path file →
            v ∈ recorded Report.empty (_check_imports d src_path file level Report.empty)).
  { intros v Hv Htype Hpath.
    apply (Helem v Hfiles Hrun) in Hv
      as [[-> _] | [[-> _] | (file' & Hfile' & _ & _ & [Hv | Hv])]];
      [discriminate Htype | discriminate Htype | |].
    - apply check_component_logic_recorded_elem in Hv as [Hv _].
      rewrite Hv in Htype. discriminate Htype.
    - assert (file' = file) as ->; [|exact Hv].
      apply (iterdir_str_inj d src_path unit_path files); try assumption.
      apply check_imports_recorded_elem in Hv as (? & ? & _ & _ & _ & ->).
      exact Hpath. }
  split.
  - intros forbidden Hforbidden v. split.
    + intros Hmatch. apply (Helem v Hfiles Hrun). right; right.
      exists file. split; [exact Hfile |]. split; [exact Hsuffix |].
      split; [exact Htest |]. right.
      apply check_imports_recorded_elem. exists content, forbidden. auto.
    + intros Hmatch Hv. apply Hfrom in Hv; [|reflexivity ..].
      apply check_imports_recorded_elem in Hv
        as (content' & forbidden' & Hread' & _ & Hmatch' & Hv).
      rewrite Hread in Hread'. injection Hread' as <-.
      injection Hv as Hm.
      apply append_inj_l, (append_inj_l " should not import from ") in Hm.
      subst forbidden'. rewrite Hmatch in Hmatch'. discriminate Hmatch'.
  - intros v Hv Htype Hpath. apply Hfrom in Hv; [|assumption ..].
    apply check_imports_recorded_elem in Hv
      as (content' & forbidden & Hread' & Hforbidden & Hmatch & ->).
    rewrite Hread in Hread'. injection Hread' as <-.
    exists forbidden. auto.
Qed.

Lemma dependency_direction_check_witness :
  ∃ r', _analyze_component Sample.project Sample.src Sample.button_unit
          "atoms" Report.empty = Some r'
        ∧ mkViolation "dependency" (str Sample.src Sample.button_file)
            (Text.capitalize "atoms" +:+ " should not import from " +:+ "molecules")
            "error" ∈ recorded Report.empty r'.
Proof.
  destruct dependency_direction_check as (_ & _ & H).
  edestruct (H Sample.project Sample.src Sample.button_unit "atoms"%string
               Report.empty Sample.button_listing Sample.button_file
               Sample.button_text)
    as (r' & Hrun & Hforbidden & _).
  - reflexivity.
  - apply (bool_decide_unpack _). vm_compute. exact I.
  - apply (bool_decide_unpack _). vm_compute. exact I.
  - vm_compute. reflexivity.
  - reflexivity.
  - exists r'. split; [exact Hrun |].
    apply (Hforbidden "molecules"%string).
    + apply (bool_decide_unpack _). vm_compute. exact I.
    + vm_compute. reflexivity.
Defined.

(** The filter of the loop reads [file.suffix], which is empty for a name
    that is nothing but an extension: the directory of such a file is
    located as a unit, and the file is passed over by both checks. *)
Example bare_extension_not_checked :
  let d := Some (Dir [("components",
                       Dir [("atoms",
                             Dir [("Hidden",
                                   Dir [(".tsx", File (Some Sample.button_text))])])])])%string in
  _find_component_dirs d ["components"; "atoms"]%string
    = [["components"; "atoms"; "Hidden"]%string]
  ∧ (violations <$> _analyze_component d Sample.src
                      ["components"; "atoms"; "Hidden"]%string "atoms" Report.empty)
    = Some [mkViolation "barrel" "src/components/atoms/Hidden"
              "Missing barrel file (index.ts)" "warning";
            mkViolation "test" "src/components/atoms/Hidden"
              "Missing test file" "warning"].
Proof. split; vm_compute; reflexivity. Qed.

(** ** C2: a missing components directory *)

(** C2.  When nothing sits at [src_path/components], [analyze] returns the
    report that holds one violation, of type structure and severity error,
    and whose three counters are zero: the structure check, the locator and
    the checks of the units have left no trace in it. *)
Theorem missing_components_directory (d : disk) (src_path : FS.PurePath) :
  resolve d components_path = None →
  analyze d src_path =
    Some (mkReport
            [mkViolation "structure" (str src_path components_path)
               "components/ directory not found" "error"]
            0 0 0).
Proof.
  intros H. unfold analyze, exists_. by rewrite H.
Qed.

Lemma missing_components_directory_witness :
  resolve Sample.bare_project components_path = None
  ∧ analyze Sample.bare_project Sample.src =
      Some (mkReport
              [mkViolation "structure" "src/components"
                 "components/ directory not found" "error"]
              0 0 0).
Proof.
  split; [reflexivity |].
  apply (missing_components_directory Sample.bare_project Sample.src).
  reflexivity.
Defined.

(** When [components] is a regular file the path exists: the analysis goes
    on and reports the three tiers as missing. *)
Example components_is_a_file :
  analyze (Some (Dir [("components"%string, File (Some ""%string))])) Sample.src
  = Some (mkReport
            [mkViolation "structure" "src/components/atoms"
               "Missing atoms/ directory" "warning";
             mkViolation "structure" "src/components/molecules"
               "Missing molecules/ directory" "warning";
             mkViolation "structure" "src/components/organisms"
               "Missing organisms/ directory" "warning"]
            0 0 0).
Proof. vm_compute. reflexivity. Qed.

(** ** C3: the component locator *)

(** C3.  On a disk whose directories list each name once,
    [_find_component_dirs] applied to [base_path] yields exactly the paths
    [base_path ++ q], of any depth and with [q] empty for the base itself,
    at which a directory sits that lists a file whose name ends with one
    of the component extensions and with none of the four test patterns;
    nothing is asked of the directories on the way.  A base path at which
    nothing sits yields the empty list. *)
Theorem component_locator (d : disk) (base_path : Path) :
  well_formed_disk d = true →
  (COMPONENT_EXTENSIONS = {[ ".tsx"; ".jsx" ]}
   ∧ TEST_PATTERNS = {[ ".test.tsx"; ".test.jsx"; ".spec.tsx"; ".spec.jsx" ]})
  ∧ (∀ p, p ∈ _find_component_dirs d base_path ↔
       ∃ q es,
         p = base_path ++ q
         ∧ resolve d p = Some (Dir es)
         ∧ ∃ f content,
             (f, File content) ∈ es
             ∧ (∃ ext, ext ∈ COMPONENT_EXTENSIONS ∧ is_suffix_of ext f)
             ∧ (∀ pat, pat ∈ TEST_PATTERNS → ¬ is_suffix_of pat f))
  ∧ (resolve d base_path = None → _find_component_dirs d base_path = []).
Proof.
  intros Hwf. split; [split; reflexivity |]. split.
  - intros p. rewrite (elem_of_find_component_dirs d base_path p Hwf).
    split; intros (q & es & Hp & Hres & f & content & Hin & Hname);
      exists q, es; (split; [exact Hp |]); (split; [exact Hres |]);
      exists f, content; (split; [exact Hin |]);
      apply is_component_name_spec in Hname || apply is_component_name_spec;
      exact Hname.
  - apply find_component_dirs_missing.
Qed.

Lemma component_locator_witness :
  well_formed_disk Sample.project = true
  ∧ (["components"; "molecules"; "forms"; "Field"]%string
       ∈ _find_component_dirs Sample.project ["components"; "molecules"]%string)
  ∧ _find_component_dirs Sample.project ["components"; "organisms"]%string = [].
Proof.
  destruct (component_locator Sample.project ["components"; "molecules"]%string eq_refl)
    as (_ & Hiff & _).
  destruct (component_locator Sample.project ["components"; "organisms"]%string eq_refl)
    as (_ & _ & Hmissing).
  split; [reflexivity |]. split; [|apply Hmissing; reflexivity].
  apply Hiff. exists ["forms"; "Field"]%string. eexists.
  split; [reflexivity |]. split; [reflexivity |].
  exists "Field.jsx"%string. eexists. split; [apply list_elem_of_here |].
  split.
  - exists ".jsx"%string. split; [apply (bool_decide_unpack _); vm_compute; exact I |].
    by exists "Field"%string.
  - intros pat Hpat Hsuffix. apply endswith_spec in Hsuffix.
    unfold TEST_PATTERNS in Hpat.
    rewrite !elem_of_union, !elem_of_singleton in Hpat.
    destruct Hpat as [[[-> | ->] | ->] | ->]; vm_compute in Hsuffix; discriminate Hsuffix.
Defined.

(** ** C4: the barrel check *)

(** C4.  For a unit whose listing [files] succeeds, with [file_names] the
    names of its regular files: the analysis of the unit returns a report;
    when [file_names] and [BARREL_FILES] have no name in common, exactly
    one violation of type barrel is recorded, the warning for the unit, and
    [components_with_barrels] keeps its value; when they have a name in
    common, no violation of type barrel is recorded and
    [components_with_barrels] grows by one.  So exactly one barrel
    violation is recorded if and only if the two sets are disjoint. *)
Theorem barrel_check (d : disk) (src_path : FS.PurePath) (unit_path : Path)
    (level : string) (r : AnalysisReport) (files : list Path) :
  iterdir d unit_path = Some files →
  let file_names : gset string :=
    list_to_set (name <$> List.filter (is_file d) files) in
  BARREL_FILES = {[ "index.ts"; "index.tsx"; "index.js"; "index.jsx" ]}
  ∧ ∃ r', _analyze_component d src_path unit_path level r = Some r'
    ∧ let barrel_violations :=
        filter (λ v, type v = "barrel"%string) (recorded r r') in
      (file_names ## BARREL_FILES →
         barrel_violations =
           [mkViolation "barrel" (str src_path unit_path)
              "Missing barrel file (index.ts)" "warning"]
         ∧ components_with_barrels r' = components_with_barrels r)
      ∧ (¬ file_names ## BARREL_FILES →
           barrel_violations = []
           ∧ components_with_barrels r' = components_with_barrels r + 1)
      ∧ (length barrel_violations = 1%nat ↔ file_names ## BARREL_FILES).
Proof.
  intros Hfiles file_names. split; [reflexivity |].
  destruct (analyze_component_spec d src_path unit_path level r files Hfiles)
    as (r' & Hrun & Hrec & _ & Hbarrels & _).
  exists r'. split; [exact Hrun |].
  fold file_names in Hrec, Hbarrels.
  rewrite Hrec, !filter_app.
  rewrite (filter_none _ (concat _))
    by (intros v [Hv | Hv]%files_recorded_type Hb; rewrite Hv in Hb; discriminate Hb).
  assert (Hdisjoint : file_names ## BARREL_FILES ↔ file_names ∩ BARREL_FILES = ∅).
  { rewrite disjoint_intersection_L. reflexivity. }
  assert (Htest : ∀ b : bool,
            filter (λ v, type v = "barrel"%string)
              (if b then []
               else [mkViolation "test" (str src_path unit_path)
                       "Missing test file" "warning"]) = []).
  { by intros []. }
  rewrite Htest, !app_nil_r.
  destruct (bool_decide_reflect (file_names ∩ BARREL_FILES ≠ ∅)) as [Hb | Hb].
  - assert (¬ file_names ## BARREL_FILES) as Hnd by (rewrite Hdisjoint; exact Hb).
    split; [intros ?; contradiction |].
    split; [intros _; split; [reflexivity | lia] |].
    simpl. split; [discriminate | intros ?; contradiction].
  - apply dec_stable in Hb. apply Hdisjoint in Hb.
    split; [intros _; split; [reflexivity | lia] |].
    split; [intros ?; contradiction |].
    simpl. split; [intros _; exact Hb | reflexivity].
Qed.

Lemma barrel_check_witness :
  ∃ r', _analyze_component Sample.project Sample.src Sample.icon_unit
          "atoms" Report.empty = Some r'
        ∧ filter (λ v, type v = "barrel"%string) (recorded Report.empty r')
          = [mkViolation "barrel" (str Sample.src Sample.icon_unit)
               "Missing barrel file (index.ts)" "warning"].
Proof.
  edestruct (barrel_check Sample.project Sample.src Sample.icon_unit
               "atoms"%string Report.empty [Sample.icon_file])
    as (_ & r' & Hrun & Hdisjoint & _).
  - reflexivity.
  - exists r'. split; [exact Hrun |].
    apply Hdisjoint.
    apply (bool_decide_unpack _). vm_compute. exact I.
Defined.

(** ** C5: the logic-density check *)

(** C5.  For a file whose text [content] can be read, with [hooks] the
    number of occurrences of the five names of [STATE_HOOKS] in [content]
    and [functions] the number of matches of the three [LOGIC_PATTERNS],
    [_check_component_logic] records exactly one violation, the warning of
    type logic whose message spells out [hooks] and [functions], when
    [hooks > 2] and [functions > 2], and records nothing otherwise; it
    leaves the counters alone, and running it again on the unchanged file
    records the same violation with the same counts. *)
Theorem logic_density_check (d : disk) (src_path : FS.PurePath) (file : Path)
    (level : string) (r : AnalysisReport) (content : string) :
  read_text d file = Some content →
  let hooks :=
    (Text.count content "useState" + Text.count content "useReducer"
     + Text.count content "useEffect" + Text.count content "useMemo"
     + Text.count content "useCallback")%nat in
  let functions :=
    sum_list ((λ pattern, length (Re.findall pattern content)) <$> LOGIC_PATTERNS) in
  let warning :=
    mkViolation "logic" (str src_path file)
      ("Component has " +:+ Text.of_nat hooks +:+ " hooks and "
       +:+ Text.of_nat functions
       +:+ " functions. Consider extracting logic to a custom hook.")
      "warning" in
  let r' := _check_component_logic d src_path file level r in
  ((2 < hooks)%nat ∧ (2 < functions)%nat → recorded r r' = [warning])
  ∧ (¬ ((2 < hooks)%nat ∧ (2 < functions)%nat) → recorded r r' = [])
  ∧ ((∃ v, v ∈ recorded r r' ∧ type v = "logic"%string)
     ↔ (2 < hooks)%nat ∧ (2 < functions)%nat)
  ∧ same_counters r r'
  ∧ recorded r' (_check_component_logic d src_path file level r') = recorded r r'.
Proof.
  intros Hread hooks functions warning r'.
  assert (Hhooks : hook_count content = hooks).
  { unfold hook_count, hooks, STATE_HOOKS. simpl. lia. }
  assert (Hfunctions : length (function_matches content) = functions).
  { unfold function_matches, functions, LOGIC_PATTERNS. simpl.
    rewrite !length_app. lia. }
  assert (Hrec : ∀ r0, recorded r0 (_check_component_logic d src_path file level r0)
                       = if ((2 <? hooks) && (2 <? functions))%nat
                         then [warning] else []).
  { intros r0. rewrite check_component_logic_recorded, Hread. simpl.
    by rewrite Hhooks, Hfunctions. }
  assert (Hcond : ((2 <? hooks) && (2 <? functions))%nat = true
                  ↔ (2 < hooks)%nat ∧ (2 < functions)%nat).
  { by rewrite andb_true_iff, !Nat.ltb_lt. }
  subst r'. rewrite !Hrec.
  split; [|split; [|split; [|split]]].
  - intros H. apply Hcond in H. by rewrite H.
  - intros H. destruct ((2 <? hooks) && (2 <? functions))%nat; [|done].
    exfalso. by apply H, Hcond.
  - rewrite <- Hcond. destruct ((2 <? hooks) && (2 <? functions))%nat; split.
    + done.
    + intros _. exists warning. split; [by apply list_elem_of_singleton | done].
    + intros (v & Hv & _). destruct (proj1 (elem_of_nil _) Hv).
    + done.
  - apply same_counters_check_component_logic.
  - done.
Qed.

Lemma logic_density_check_witness :
  read_text Sample.project Sample.panel_file = Some Sample.panel_text
  ∧ ∃ v, v ∈ recorded Report.empty
               (_check_component_logic Sample.project Sample.src
                  Sample.panel_file "atoms" Report.empty)
         ∧ type v = "logic"%string.
Proof.
  split; [reflexivity |].
  destruct (logic_density_check Sample.project Sample.src Sample.panel_file
              "atoms" Report.empty Sample.panel_text eq_refl)
    as (_ & _ & H & _).
  apply H. split; vm_compute; lia.
Defined.

(** ** C6: the order of the violations *)

(** C6 as stated fails.  The Button unit of the sample project has a barrel
    and a test; its first file has a forbidden import and its second file
    is dense in logic.  The dependency violation of the first file is
    recorded before the logic violation of the second, in the unit and in
    the report of the whole run. *)
Lemma check_order_counterexample :
  (∃ r, _analyze_component Sample.project Sample.src Sample.button_unit
          "atoms" Report.empty = Some r
        ∧ recorded Report.empty r = [Sample.button_dependency; Sample.panel_logic]
        ∧ ¬ in_check_order (recorded Report.empty r))
  ∧ (∃ run, analyze Sample.project Sample.src = Some run
            ∧ violations run !! 1%nat = Some Sample.button_dependency
            ∧ violations run !! 2%nat = Some Sample.panel_logic).
Proof.
  split.
  - eexists. split; [vm_compute; reflexivity |].
    split; [reflexivity |].
    intros Horder.
    specialize (Horder 1%nat 0%nat Sample.panel_logic Sample.button_dependency
                  eq_refl eq_refl).
    vm_compute in Horder. lia.
  - eexists. split; [vm_compute; reflexivity |]. split; reflexivity.
Qed.

(** C6, amended.  On a disk whose directories list each name once, [analyze]
    returns a report.  The violations of every report it returns are in
    detection order: first the structure violations; then, for the tiers
    atoms, molecules, organisms in this order and within a tier for its
    units in the order the locator yields them, the violations of the
    unit; within a unit the barrel violation, then the test violation,
    then the violations of its entries in listing order, and for each
    entry its logic violation before its dependency violations.  (The
    logic violation of a later entry therefore follows the dependency
    violations of an earlier entry of the same unit.) *)
Theorem violations_in_detection_order (d : disk) (src_path : FS.PurePath) :
  (well_formed_disk d = true → is_Some (analyze d src_path))
  ∧ ∀ r, analyze d src_path = Some r →
         in_detection_order d src_path (violations r).
Proof.
  split; [apply analyze_is_Some |].
  intros r. unfold analyze, in_detection_order.
  destruct (exists_ d components_path) eqn:Hexists; simpl.
  - intros Hrun.
    rewrite (appends_analyze_components d src_path) in Hrun.
    destruct (_analyze_components d src_path Report.empty) as [e|] eqn:He;
      [|discriminate Hrun].
    injection Hrun as <-.
    destruct (analyze_components_blocks d src_path e He) as (blocks & Hv & Hblocks).
    exists (violations (_check_top_level_structure d src_path Report.empty)), blocks.
    split; [simpl; by rewrite Hv |].
    split; [apply check_top_level_structure_violations | exact Hblocks].
  - intros [= <-].
    exists [mkViolation "structure" (str src_path components_path)
              "components/ directory not found" "error"], [].
    split; [reflexivity |].
    rewrite (located_units_missing d Hexists).
    split; repeat constructor.
Qed.

Lemma violations_in_detection_order_witness :
  ∃ r, analyze Sample.project Sample.src = Some r
       ∧ in_detection_order Sample.project Sample.src (violations r).
Proof.
  destruct (violations_in_detection_order Sample.project Sample.src)
    as (Hsome & Horder).
  destruct (Hsome eq_refl) as [r Hr].
  exists r. split; [exact Hr | exact (Horder r Hr)].
Defined.

(** ** C7: the counters *)

(** C7.  On a disk whose directories list each name once, [analyze] returns a
    report.  In every report it returns, [components_found] is the number
    of located units, and [components_with_tests] and
    [components_with_barrels] lie between zero and [components_found].
    The analysis of one unit adds one to [components_found] and zero or
    one to each of the two other counters. *)
Theorem counters_invariant (d : disk) (src_path : FS.PurePath) :
  (well_formed_disk d = true → is_Some (analyze d src_path))
  ∧ (∀ r, analyze d src_path = Some r →
       components_found r = Z.of_nat (length (located_units d))
       ∧ 0 ≤ components_found r
       ∧ 0 ≤ components_with_tests r ≤ components_found r
       ∧ 0 ≤ components_with_barrels r ≤ components_found r)
  ∧ (∀ unit_path level r0 r1,
       _analyze_component d src_path unit_path level r0 = Some r1 →
       components_found r1 = components_found r0 + 1
       ∧ components_with_tests r0 ≤ components_with_tests r1
           ≤ components_with_tests r0 + 1
       ∧ components_with_barrels r0 ≤ components_with_barrels r1
           ≤ components_with_barrels r0 + 1).
Proof.
  split; [apply analyze_is_Some |]. split.
  - intros r. unfold analyze.
    destruct (exists_ d components_path) eqn:Hexists; simpl.
    + intros Hrun. apply analyze_components_counted in Hrun.
      pose proof (same_counters_check_top_level_structure d src_path Report.empty)
        as Hsame.
      unfold counted, same_counters in *. simpl in Hsame. lia.
    + intros [= <-]. rewrite (located_units_missing d Hexists). simpl. lia.
  - intros unit_path level r0 r1. apply analyze_component_counted.
Qed.

Lemma counters_invariant_witness :
  ∃ r, analyze Sample.project Sample.src = Some r
       ∧ components_found r = 3
       ∧ 0 ≤ components_with_tests r ≤ components_found r
       ∧ 0 ≤ components_with_barrels r ≤ components_found r.
Proof.
  destruct (counters_invariant Sample.project Sample.src) as (Hsome & Hrun & _).
  destruct (Hsome eq_refl) as [r Hr].
  exists r. split; [exact Hr |].
  destruct (Hrun r Hr) as (Hfound & _ & Htests & Hbarrels).
  split; [|split; assumption].
  rewrite Hfound. vm_compute. reflexivity.
Defined.

(** ** C8: files that cannot be read *)

(** C8.  When the text of [file] cannot be read, the logic-density check and
    the dependency-direction check both return the report as they received
    it: no violation is recorded and no counter moves.  The loop over the
    entries of a unit then goes on with the remaining entries as if [file]
    were not listed, and the analysis of a unit whose listing succeeded
    returns a report. *)
Theorem unreadable_file_skipped (d : disk) (src_path : FS.PurePath) (file : Path)
    (level : string) :
  read_text d file = None →
  (∀ r, _check_component_logic d src_path file level r = r)
  ∧ (∀ r, _check_imports d src_path file level r = r)
  ∧ (∀ r, check_file d src_path level r file = r)
  ∧ (∀ r before after,
       foldl (check_file d src_path level) r (before ++ file :: after)
       = foldl (check_file d src_path level) r (before ++ after))
  ∧ (∀ r unit files,
       iterdir d unit = Some files → file ∈ files →
       is_Some (_analyze_component d src_path unit level r)).
Proof.
  intros Hread.
  assert (Hlogic : ∀ r, _check_component_logic d src_path file level r = r).
  { intros r. unfold _check_component_logic. by rewrite Hread. }
  assert (Himports : ∀ r, _check_imports d src_path file level r = r).
  { intros r. unfold _check_imports. by rewrite Hread. }
  assert (Hfile : ∀ r, check_file d src_path level r file = r).
  { intros r. unfold check_file. rewrite Hlogic, Himports.
    destruct (bool_decide _); [|reflexivity]. destruct (negb _); reflexivity. }
  repeat split; try assumption.
  - intros r before after. rewrite !foldl_app. simpl. by rewrite Hfile.
  - intros r unit files Hfiles _.
    destruct (analyze_component_spec d src_path unit level r files Hfiles)
      as (r' & -> & _).
    by exists r'.
Qed.

Lemma unreadable_file_skipped_witness :
  read_text Sample.project Sample.locked_file = None
  ∧ ∀ r, check_file Sample.project Sample.src "atoms" r Sample.locked_file = r.
Proof.
  split; [reflexivity |].
  apply (unreadable_file_skipped Sample.project Sample.src Sample.locked_file "atoms").
  reflexivity.
Defined.

(** ** C9: the exit code *)

Lemma has_errors_spec (r : AnalysisReport) :
  Report.has_errors r = true ↔
  ∃ v, v ∈ violations r ∧ severity v = "error"%string.
Proof.
  unfold Report.has_errors. rewrite existsb_exists.
  split; intros (v & Hin & Hsev); exists v;
    (split; [by apply list_elem_of_In | by apply String.eqb_eq]).
Qed.

(** C9.  With [src_path] the second element of [argv], or [./src] when
    there is none: if nothing sits at [src_path], [main] ends with exit
    code 1 and no report has been produced; otherwise, when [analyze]
    returns a report, the exit code is 0 if and only if no violation of the
    report has severity error, and 1 if and only if one has. *)
Theorem exit_code_reflects_errors (argv : list string) (at_path : string → disk) :
  let src_path := match argv with _ :: a :: _ => a | _ => "./src"%string end in
  (at_path src_path = None → main argv at_path = mkOutcome None 1)
  ∧ (∀ report,
       at_path src_path ≠ None →
       analyze (at_path src_path) (parse src_path) = Some report →
       printed (main argv at_path) = Some report
       ∧ (exit_code (main argv at_path) = 0
          ↔ ∀ v, v ∈ violations report → severity v ≠ "error"%string)
       ∧ (exit_code (main argv at_path) = 1
          ↔ ∃ v, v ∈ violations report ∧ severity v = "error"%string)).
Proof.
  intros src_path. unfold main. fold src_path. split.
  - by intros ->.
  - intros report Hexists Hrun.
    destruct (at_path src_path) as [root|] eqn:Hroot; [|done].
    rewrite Hrun. simpl. split; [reflexivity |].
    pose proof (has_errors_spec report) as Herr.
    destruct (Report.has_errors report).
    + assert (∃ v, v ∈ violations report ∧ severity v = "error"%string)
        as (v & Hv & Hsev) by by apply Herr.
      split.
      * split; [discriminate | intros H; by destruct (H v Hv)].
      * split; [intros _; by exists v | reflexivity].
    + assert (¬ ∃ v, v ∈ violations report ∧ severity v = "error"%string) as Hnone.
      { intros H. apply Herr in H. discriminate H. }
      split.
      * split; [intros _ v Hv Hsev; apply Hnone; by exists v | reflexivity].
      * split; [discriminate | intros H; by destruct Hnone].
Qed.

Lemma exit_code_reflects_errors_witness :
  exit_code (main ["analyze_structure.py"; "src"]%string Sample.world) = 1
  ∧ main ["analyze_structure.py"; "lib"]%string Sample.world = mkOutcome None 1.
Proof.
  split.
  - destruct (exit_code_reflects_errors ["analyze_structure.py"; "src"]%string
                Sample.world) as (_ & H).
    destruct (analyze (Sample.world "src") (parse "src")) as [report|] eqn:Hrun;
      [|vm_compute in Hrun; discriminate Hrun].
    destruct (H report) as (_ & _ & Hone);
      [vm_compute; discriminate | reflexivity |].
    apply Hone. vm_compute in Hrun. injection Hrun as <-.
    exists (mkViolation "dependency" "src/components/atoms/Button/Button.tsx"
              "Atoms should not import from molecules" "error").
    split; [|reflexivity].
    apply list_elem_of_further, list_elem_of_here.
  - apply (exit_code_reflects_errors ["analyze_structure.py"; "lib"]%string
             Sample.world).
    reflexivity.
Defined.

(** ** C10: one violation per file and forbidden tier *)

(** C10.  Whatever the text of [file] holds, one run of [_check_imports]
    records at most one dependency violation for [file] that names the
    tier [forbidden]. *)
Theorem one_violation_per_forbidden_tier (d : disk) (src_path : FS.PurePath)
    (file : Path) (level : string) (r : AnalysisReport) (forbidden : string) :
  (length
     (filter (λ v, type v = "dependency"%string
                   ∧ path v = str src_path file
                   ∧ message v = Text.capitalize level
                                 +:+ " should not import from " +:+ forbidden)
        (recorded r (_check_imports d src_path file level r))) ≤ 1)%nat.
Proof.
  rewrite check_imports_recorded.
  destruct (read_text d file) as [content|]; [|simpl; lia].
  pose proof (forbidden_imports_NoDup level) as Hnodup.
  apply (NoDup_list_filter (λ f, Re.search (import_pattern f) content)) in Hnodup.
  induction Hnodup as [|f l Hf Hl IH]; [simpl; lia |].
  rewrite fmap_cons.
  destruct (decide (f = forbidden)) as [->|Hne].
  - rewrite filter_cons_True by done. simpl.
    rewrite filter_none; [simpl; lia |].
    intros v (f' & -> & Hf')%list_elem_of_fmap (_ & _ & Hm). simpl in Hm.
    apply append_inj_l, (append_inj_l " should not import from ") in Hm.
    subst f'. by apply Hf.
  - rewrite filter_cons_False; [exact IH |].
    intros (_ & _ & Hm). simpl in Hm.
    apply append_inj_l, (append_inj_l " should not import from ") in Hm. done.
Qed.

(** A file of an atoms unit that imports twice from molecules: one
    violation is recorded for it. *)
Example two_imports_one_violation :
  recorded Report.empty
    (_check_imports Sample.project Sample.src Sample.icon_file "atoms" Report.empty)
  = [mkViolation "dependency" "src/components/atoms/Icon/Icon.jsx"
       "Atoms should not import from molecules" "error"].
Proof. vm_compute. reflexivity. Qed.

(** * Further properties of the analyzer *)

(** ** Invariants of a run *)

Section run_invariants.

Variable d : disk.
Variable src_path : FS.PurePath.

Lemma analyze_component_violations unit_path level r r' :
  _analyze_component d src_path unit_path level r = Some r' →
  violations r' = violations r ++ recorded r r'.
Proof.
  rewrite (appends_analyze_component d src_path unit_path level r).
  destruct (_analyze_component d src_path unit_path level Report.empty) as [e|];
    [|discriminate].
  intros [= <-]. by rewrite recorded_combine.
Qed.

Lemma for_each_invariant {A} (body : A → AnalysisReport → option AnalysisReport)
    (P : AnalysisReport → Prop) l :
  (∀ x r r', x ∈ l → P r → body x r = Some r' → P r') →
  ∀ r r', P r → for_each body l r = Some r' → P r'.
Proof.
  induction l as [|x l IH]; intros Hbody r r' HP Hrun; simpl in Hrun.
  - by injection Hrun as <-.
  - destruct (body x r) as [r1|] eqn:Hx; [|discriminate Hrun].
    apply (IH (λ y r0 r0' Hy, Hbody y r0 r0' (list_elem_of_further _ _ _ Hy)) r1 r');
      [|exact Hrun].
    exact (Hbody x r r1 (list_elem_of_here _ _) HP Hx).
Qed.

Lemma elem_of_tier_units level unit_path :
  (level, unit_path) ∈ tier_units d level ↔
  exists_ d (components_path ++ [level]) = true
  ∧ unit_path ∈ _find_component_dirs d (components_path ++ [level]).
Proof.
  unfold tier_units. destruct (exists_ d (components_path ++ [level])).
  - rewrite list_elem_of_fmap. split.
    + intros (u & [= <-] & Hu). by split.
    + intros [_ Hu]. by exists unit_path.
  - rewrite elem_of_nil. split; [intros [] | by intros [[=] _]].
Qed.

(** What holds of the report when the units are reached and is kept by the
    analysis of each located unit holds of the report [analyze] returns. *)
Lemma analyze_invariant (P : AnalysisReport → Prop) :
  (exists_ d components_path = false →
   P (Report.add
        (mkViolation "structure" (str src_path components_path)
           "components/ directory not found" "error") Report.empty)) →
  (exists_ d components_path = true →
   P (_check_top_level_structure d src_path Report.empty)) →
  (∀ unit_path level r r',
     (level, unit_path) ∈ located_units d →
     P r → _analyze_component d src_path unit_path level r = Some r' → P r') →
  ∀ r, analyze d src_path = Some r → P r.
Proof.
  intros Hmissing Hstart Hunit r. unfold analyze.
  destruct (exists_ d components_path); simpl.
  - apply for_each_invariant; [|by apply Hstart].
    intros level r0 r1 Hlevel HP. unfold analyze_level.
    destruct (exists_ d (components_path ++ [level])) eqn:Hexists; simpl;
      [|by intros [= <-]].
    apply for_each_invariant; [|exact HP].
    intros unit_path r2 r3 Hin. apply Hunit.
    assert ((level, unit_path) ∈ tier_units d level) as Htier
      by (apply elem_of_tier_units; by split).
    unfold located_units. rewrite !elem_of_app.
    apply elem_of_cons in Hlevel as [-> | Hlevel]; [by left |].
    apply elem_of_cons in Hlevel as [-> | Hlevel]; [right; by left |].
    apply list_elem_of_singleton in Hlevel as ->. right; by right.
  - intros [= <-]. by apply Hmissing.
Qed.


End run_invariants.

(** ** What the analysis of a unit adds to a report *)

Section unit_additions.

Variable d : disk.
Variable src_path : FS.PurePath.

(** The kinds of violations a unit can contribute. *)
Lemma analyze_component_recorded_kind unit_path level r r' v :
  _analyze_component d src_path unit_path level r = Some r' →
  v ∈ recorded r r' →
  (type v = "barrel"%string ∧ severity v = "warning"%string)
  ∨ (type v = "test"%string ∧ severity v = "warning"%string)
  ∨ (type v = "logic"%string ∧ severity v = "warning"%string)
  ∨ (type v = "dependency"%string ∧ severity v = "error"%string).
Proof.
  intros Hrun Hv.
  destruct (analyze_component_iterdir d src_path _ _ _ _ Hrun) as [files Hfiles].
  destruct (proj1 (analyze_component_recorded_elem d src_path unit_path level
                     r r' files v Hfiles Hrun) Hv)
    as [[-> _] | [[-> _] | (file & _ & _ & _ & [Hv' | Hv'])]];
    clear Hv; try rename Hv' into Hv.
  - left. by split.
  - right; left. by split.
  - right; right; left.
    rewrite check_component_logic_recorded in Hv.
    destruct (read_text d file) as [content|]; [|destruct (proj1 (elem_of_nil _) Hv)].
    simpl in Hv. destruct (_ && _); [|destruct (proj1 (elem_of_nil _) Hv)].
    apply list_elem_of_singleton in Hv as ->. by split.
  - right; right; right.
    apply check_imports_recorded_elem in Hv as (c & f & _ & _ & _ & ->). by split.
Qed.

(** How many barrel and test violations a unit contributes. *)
Lemma analyze_component_barrel_test unit_path level r r' files :
  iterdir d unit_path = Some files →
  _analyze_component d src_path unit_path level r = Some r' →
  let file_names : gset string :=
    list_to_set (name <$> List.filter (is_file d) files) in
  filter (λ v, type v = "barrel"%string) (recorded r r') =
    (if bool_decide (file_names ∩ BARREL_FILES ≠ ∅) then []
     else [mkViolation "barrel" (str src_path unit_path)
             "Missing barrel file (index.ts)" "warning"])
  ∧ filter (λ v, type v = "test"%string) (recorded r r') =
      (if bool_decide (set_Exists (λ f, endswith_any f TEST_PATTERNS = true) file_names)
       then []
       else [mkViolation "test" (str src_path unit_path)
               "Missing test file" "warning"]).
Proof.
  intros Hfiles Hrun file_names.
  destruct (analyze_component_spec d src_path unit_path level r files Hfiles)
    as (r'' & Hrun' & Hrec & _).
  rewrite Hrun in Hrun'. injection Hrun' as <-.
  fold file_names in Hrec. rewrite Hrec, !filter_app.
  rewrite (filter_none (λ v, type v = "barrel"%string) (concat _))
    by (intros v [Hv | Hv]%files_recorded_type Hb; rewrite Hv in Hb; discriminate Hb).
  rewrite (filter_none (λ v, type v = "test"%string) (concat _))
    by (intros v [Hv | Hv]%files_recorded_type Hb; rewrite Hv in Hb; discriminate Hb).
  rewrite !app_nil_r.
  split.
  - destruct (bool_decide (file_names ∩ BARREL_FILES ≠ ∅)), (bool_decide (set_Exists _ _));
      reflexivity.
  - destruct (bool_decide (file_names ∩ BARREL_FILES ≠ ∅)), (bool_decide (set_Exists _ _));
      reflexivity.
Qed.

End unit_additions.

(** ** X1: the test check *)

(** X1.  For a unit whose listing [files] succeeds, with [file_names] the
    names of its regular files: when no name in [file_names] ends with one
    of the four test patterns, the analysis of the unit records exactly one
    violation of type test, the warning for the unit, and
    [components_with_tests] keeps its value; when some name does, no
    violation of type test is recorded and [components_with_tests] grows
    by one. *)
Theorem test_check (d : disk) (src_path : FS.PurePath) (unit_path : Path)
    (level : string) (r : AnalysisReport) (files : list Path) :
  iterdir d unit_path = Some files →
  let file_names : gset string :=
    list_to_set (name <$> List.filter (is_file d) files) in
  let has_test_file :=
    ∃ f pat, f ∈ file_names ∧ pat ∈ TEST_PATTERNS ∧ is_suffix_of pat f in
  ∃ r', _analyze_component d src_path unit_path level r = Some r'
    ∧ let test_violations :=
        filter (λ v, type v = "test"%string) (recorded r r') in
      (¬ has_test_file →
         test_violations =
           [mkViolation "test" (str src_path unit_path) "Missing test file" "warning"]
         ∧ components_with_tests r' = components_with_tests r)
      ∧ (has_test_file →
           test_violations = []
           ∧ components_with_tests r' = components_with_tests r + 1).
Proof.
  intros Hfiles file_names has_test_file.
  destruct (analyze_component_spec d src_path unit_path level r files Hfiles)
    as (r' & Hrun & _ & _ & _ & Htests).
  exists r'. split; [exact Hrun |].
  destruct (analyze_component_barrel_test d src_path unit_path level r r' files
              Hfiles Hrun) as [_ Htest].
  fold file_names in Htests, Htest.
  cbv zeta. rewrite Htest, Htests.
  assert (Hiff : set_Exists (λ f, endswith_any f TEST_PATTERNS = true) file_names
                 ↔ has_test_file).
  { unfold set_Exists, has_test_file. split.
    - intros (f & Hf & (pat & Hpat & Hsuf)%endswith_any_spec). by exists f, pat.
    - intros (f & pat & Hf & Hpat & Hsuf). exists f. split; [exact Hf |].
      apply endswith_any_spec. by exists pat. }
  destruct (bool_decide_reflect
              (set_Exists (λ f, endswith_any f TEST_PATTERNS = true) file_names))
    as [Hyes | Hno].
  - split; [intros Hnot; destruct Hnot; by apply Hiff | intros _; split; [reflexivity | lia]].
  - split; [intros _; split; [reflexivity | lia] |].
    intros Hhas. destruct Hno. by apply Hiff.
Qed.

Lemma test_check_witness :
  ∃ r', _analyze_component Sample.project Sample.src Sample.icon_unit
          "atoms" Report.empty = Some r'
        ∧ filter (λ v, type v = "test"%string) (recorded Report.empty r')
          = [mkViolation "test" (str Sample.src Sample.icon_unit)
               "Missing test file" "warning"].
Proof.
  edestruct (test_check Sample.project Sample.src Sample.icon_unit
               "atoms"%string Report.empty [Sample.icon_file])
    as (r' & Hrun & Hnone & _).
  - reflexivity.
  - exists r'. split; [exact Hrun |].
    apply Hnone. intros (f & pat & Hf & Hpat & Hsuf).
    apply endswith_spec in Hsuf.
    apply elem_of_list_to_set, list_elem_of_singleton in Hf. subst f.
    unfold TEST_PATTERNS in Hpat.
    rewrite !elem_of_union, !elem_of_singleton in Hpat.
    destruct Hpat as [[[-> | ->] | ->] | ->]; vm_compute in Hsuf; discriminate Hsuf.
Defined.

(** ** X2: the tiers reported missing *)

Lemma check_top_level_structure_recorded (d : disk) (src_path : FS.PurePath) :
  violations (_check_top_level_structure d src_path Report.empty) =
    (λ t, mkViolation "structure" (str src_path (components_path ++ [t]))
            ("Missing " +:+ t +:+ "/ directory") "warning")
    <$> List.filter (λ t, negb (exists_ d (components_path ++ [t])))
          ["atoms"; "molecules"; "organisms"]%string.
Proof. unfold _check_top_level_structure. by rewrite foldl_add_if. Qed.

(** X2.  When [components/] exists, the report of a run starts with one
    structure warning for each of [atoms], [molecules], [organisms] that
    does not exist, in this order, and holds no other violation of type
    structure.  When none of the three exists the report holds these three
    warnings and nothing else, and its counters are zero. *)
Theorem missing_tiers_reported (d : disk) (src_path : FS.PurePath)
    (r : AnalysisReport) :
  exists_ d components_path = true →
  analyze d src_path = Some r →
  let missing :=
    List.filter (λ t, negb (exists_ d (components_path ++ [t])))
      ["atoms"; "molecules"; "organisms"]%string in
  let warnings :=
    (λ t, mkViolation "structure" (str src_path (components_path ++ [t]))
            ("Missing " +:+ t +:+ "/ directory") "warning") <$> missing in
  (∃ rest, violations r = warnings ++ rest
           ∧ ∀ v, v ∈ rest → type v ≠ "structure"%string)
  ∧ (missing = ["atoms"; "molecules"; "organisms"]%string →
     r = mkReport warnings 0 0 0).
Proof.
  intros Hexists Hrun missing warnings. split.
  - revert r Hrun.
    apply (analyze_invariant d src_path
             (λ r, ∃ rest, violations r = warnings ++ rest
                           ∧ ∀ v, v ∈ rest → type v ≠ "structure"%string)).
    + intros Hmissing. rewrite Hmissing in Hexists. discriminate Hexists.
    + intros _. exists []. rewrite app_nil_r. split.
      * apply check_top_level_structure_recorded.
      * intros v Hv. destruct (proj1 (elem_of_nil _) Hv).
    + intros unit_path level r r' _ (rest & Hv & Hrest) Hunit.
      exists (rest ++ recorded r r'). split.
      * rewrite (analyze_component_violations d src_path _ _ _ _ Hunit), Hv.
        by rewrite app_assoc.
      * intros v [Hin | Hin]%elem_of_app; [by apply Hrest |].
        intros Htype.
        destruct (analyze_component_recorded_kind d src_path _ _ _ _ v Hunit Hin)
          as [[H _] | [[H _] | [[H _] | [H _]]]];
          rewrite H in Htype; discriminate Htype.
  - intros Hall. unfold analyze in Hrun. rewrite Hexists in Hrun.
    cbn [negb] in Hrun.
    assert (Hnone : ∀ t, t ∈ ["atoms"; "molecules"; "organisms"]%string →
                         exists_ d (components_path ++ [t]) = false).
    { intros t Ht. apply negb_true_iff.
      assert (In t missing) as Hin
        by (rewrite Hall; by apply list_elem_of_In).
      by apply filter_In in Hin as [_ Hin]. }
    unfold _analyze_components in Hrun. cbn [for_each] in Hrun.
    unfold analyze_level in Hrun.
    rewrite !Hnone in Hrun
      by repeat first [apply list_elem_of_here | apply list_elem_of_further].
    cbn [negb] in Hrun. injection Hrun as <-.
    pose proof (same_counters_check_top_level_structure d src_path Report.empty)
      as (Hf & Ht & Hb).
    apply report_eq; simpl.
    + apply check_top_level_structure_recorded.
    + exact Hf.
    + exact Ht.
    + exact Hb.
Qed.

Lemma missing_tiers_reported_witness :
  ∃ r, analyze Sample.project Sample.src = Some r
       ∧ ∃ rest, violations r =
                   [mkViolation "structure" "src/components/organisms"
                      "Missing organisms/ directory" "warning"] ++ rest
                 ∧ ∀ v, v ∈ rest → type v ≠ "structure"%string.
Proof.
  destruct (analyze Sample.project Sample.src) as [r|] eqn:Hrun;
    [|vm_compute in Hrun; discriminate Hrun].
  exists r. split; [reflexivity |].
  exact (proj1 (missing_tiers_reported Sample.project Sample.src r eq_refl Hrun)).
Defined.

(** ** X3: what makes a run fail *)

(** The kinds of violations a run can record. *)
Lemma analyze_violation_kinds (d : disk) (src_path : FS.PurePath)
    (r : AnalysisReport) :
  analyze d src_path = Some r →
  ∀ v, v ∈ violations r →
     (exists_ d components_path = false
      ∧ v = mkViolation "structure" (str src_path components_path)
              "components/ directory not found" "error")
     ∨ (type v = "structure"%string ∧ severity v = "warning"%string)
     ∨ (type v = "barrel"%string ∧ severity v = "warning"%string)
     ∨ (type v = "test"%string ∧ severity v = "warning"%string)
     ∨ (type v = "logic"%string ∧ severity v = "warning"%string)
     ∨ (type v = "dependency"%string ∧ severity v = "error"%string).
Proof.
  revert r. apply (analyze_invariant d src_path (λ r, ∀ v, v ∈ violations r → _)).
  - intros Hmissing v Hv. left. split; [exact Hmissing |].
    by apply list_elem_of_singleton in Hv.
  - intros _ v Hv. right; left.
    rewrite check_top_level_structure_recorded in Hv.
    apply list_elem_of_fmap in Hv as (t & -> & _). by split.
  - intros unit_path level r r' _ IH Hunit v Hv.
    rewrite (analyze_component_violations d src_path _ _ _ _ Hunit) in Hv.
    apply elem_of_app in Hv as [Hv | Hv]; [by apply IH |].
    right; right.
    exact (analyze_component_recorded_kind d src_path _ _ _ _ v Hunit Hv).
Qed.

(** X3.  Every violation of a report that [analyze] returns is of one of
    six kinds: the error for the missing [components/] entry, a structure
    warning, a barrel, test or logic warning, or a dependency error.  So
    the report has errors if and only if [components/] does not exist or a
    dependency violation was recorded: missing tiers, barrels and tests and
    dense logic never do it. *)
Theorem errors_come_from_imports_or_root (d : disk) (src_path : FS.PurePath)
    (r : AnalysisReport) :
  analyze d src_path = Some r →
  (∀ v, v ∈ violations r →
     (exists_ d components_path = false
      ∧ v = mkViolation "structure" (str src_path components_path)
              "components/ directory not found" "error")
     ∨ (type v = "structure"%string ∧ severity v = "warning"%string)
     ∨ (type v = "barrel"%string ∧ severity v = "warning"%string)
     ∨ (type v = "test"%string ∧ severity v = "warning"%string)
     ∨ (type v = "logic"%string ∧ severity v = "warning"%string)
     ∨ (type v = "dependency"%string ∧ severity v = "error"%string))
  ∧ (Report.has_errors r = true ↔
     exists_ d components_path = false
     ∨ ∃ v, v ∈ violations r ∧ type v = "dependency"%string).
Proof.
  intros Hrun.
  pose proof (analyze_violation_kinds d src_path r Hrun) as Hkinds.
  split; [exact Hkinds |].
  rewrite has_errors_spec. split.
  - intros (v & Hv & Hsev).
    destruct (Hkinds v Hv)
      as [[H _] | [[_ H] | [[_ H] | [[_ H] | [[_ H] | [H _]]]]]];
      [by left | | | | | right; by exists v];
      rewrite H in Hsev; discriminate Hsev.
  - intros [Hmissing | (v & Hv & Htype)].
    + unfold analyze in Hrun. rewrite Hmissing in Hrun. simpl in Hrun.
      injection Hrun as <-. eexists. split; [apply list_elem_of_here | reflexivity].
    + exists v. split; [exact Hv |].
      destruct (Hkinds v Hv)
        as [[_ ->] | [[H _] | [[H _] | [[H _] | [[H _] | [_ H]]]]]];
        [discriminate Htype | | | | | exact H];
        rewrite H in Htype; discriminate Htype.
Qed.

Lemma errors_come_from_imports_or_root_witness :
  ∃ r, analyze Sample.project Sample.src = Some r ∧ Report.has_errors r = true.
Proof.
  destruct (analyze Sample.project Sample.src) as [r|] eqn:Hrun;
    [|vm_compute in Hrun; discriminate Hrun].
  exists r. split; [reflexivity |].
  apply (errors_come_from_imports_or_root Sample.project Sample.src r Hrun).
  right. vm_compute in Hrun. injection Hrun as <-.
  exists Sample.button_dependency. split; [|reflexivity].
  apply list_elem_of_further, list_elem_of_here.
Defined.

(** ** X4: counters and violations agree *)

(** The structure check leaves the counters at zero and records neither a
    barrel nor a test violation. *)
Lemma counters_match_start (d : disk) (src_path : FS.PurePath) :
  let r := _check_top_level_structure d src_path Report.empty in
  components_found r =
    components_with_barrels r
    + Z.of_nat (length (filter (λ v, type v = "barrel"%string) (violations r)))
  ∧ components_found r =
      components_with_tests r
      + Z.of_nat (length (filter (λ v, type v = "test"%string) (violations r))).
Proof.
  intros r. unfold r.
  pose proof (same_counters_check_top_level_structure d src_path Report.empty)
    as (Hf & Ht & Hb).
  rewrite Hf, Ht, Hb, check_top_level_structure_recorded.
  rewrite !filter_none; [split; reflexivity | |];
    intros v (t & -> & _)%list_elem_of_fmap; discriminate.
Qed.

(** The analysis of one unit adds one to [components_found], and for the
    barrel, and for the test, either one to the counter or one violation. *)
Lemma counters_match_step (d : disk) (src_path : FS.PurePath)
    (unit_path : Path) (level : string) (r r' : AnalysisReport) :
  components_found r =
    components_with_barrels r
    + Z.of_nat (length (filter (λ v, type v = "barrel"%string) (violations r)))
  ∧ components_found r =
      components_with_tests r
      + Z.of_nat (length (filter (λ v, type v = "test"%string) (violations r))) →
  _analyze_component d src_path unit_path level r = Some r' →
  components_found r' =
    components_with_barrels r'
    + Z.of_nat (length (filter (λ v, type v = "barrel"%string) (violations r')))
  ∧ components_found r' =
      components_with_tests r'
      + Z.of_nat (length (filter (λ v, type v = "test"%string) (violations r'))).
Proof.
  intros [IHb IHt] Hunit.
  destruct (analyze_component_iterdir d src_path _ _ _ _ Hunit) as [files Hfiles].
  destruct (analyze_component_barrel_test d src_path _ _ _ _ files Hfiles Hunit)
    as [Hbarrel Htest].
  destruct (analyze_component_spec d src_path unit_path level r files Hfiles)
    as (r'' & Hunit' & _ & Hf & Hb & Ht).
  rewrite Hunit in Hunit'. injection Hunit' as <-.
  rewrite (analyze_component_violations d src_path _ _ _ _ Hunit).
  rewrite !filter_app, !length_app, Hbarrel, Htest, Hf, Hb, Ht.
  destruct (bool_decide (_ ∩ _ ≠ ∅)), (bool_decide (set_Exists _ _));
    simpl length; lia.
Qed.

(** X4.  In every report that [analyze] returns, each located unit is either
    counted as having a barrel or has a barrel violation, and likewise for
    tests: [components_found] is [components_with_barrels] plus the number
    of barrel violations, and [components_with_tests] plus the number of
    test violations. *)
Theorem counters_match_violations (d : disk) (src_path : FS.PurePath)
    (r : AnalysisReport) :
  analyze d src_path = Some r →
  components_found r =
    components_with_barrels r
    + Z.of_nat (length (filter (λ v, type v = "barrel"%string) (violations r)))
  ∧ components_found r =
      components_with_tests r
      + Z.of_nat (length (filter (λ v, type v = "test"%string) (violations r))).
Proof.
  revert r. apply (analyze_invariant d src_path (λ r, _ ∧ _)).
  - intros _. split; reflexivity.
  - intros _. apply counters_match_start.
  - intros unit_path level r r' _ IH Hunit.
    exact (counters_match_step d src_path unit_path level r r' IH Hunit).
Qed.

Lemma counters_match_violations_witness :
  ∃ r, analyze Sample.project Sample.src = Some r
       ∧ components_found r =
           components_with_barrels r
           + Z.of_nat (length (filter (λ v, type v = "barrel"%string) (violations r))).
Proof.
  destruct (analyze Sample.project Sample.src) as [r|] eqn:Hrun;
    [|vm_compute in Hrun; discriminate Hrun].
  exists r. split; [reflexivity |].
  exact (proj1 (counters_match_violations Sample.project Sample.src r Hrun)).
Defined.

(** ** X5: the direction of the dependency rule *)



(** ** X6: every unit is located once *)

Section located_once.

Lemma NoDup_fmap_list_filter {A B} (g : A → B) (c : A → bool) (l : list A) :
  NoDup (g <$> l) → NoDup (g <$> List.filter c l).
Proof.
  induction l as [|x l IH]; simpl; [constructor |].
  intros [Hx Hl]%NoDup_cons. destruct (c x); [|by apply IH].
  rewrite fmap_cons. apply NoDup_cons. split; [|by apply IH].
  intros (y & Hy & Hin)%list_elem_of_fmap. apply Hx.
  apply list_elem_of_fmap. exists y. split; [exact Hy |].
  apply list_elem_of_In, filter_In in Hin as [Hin _]. by apply list_elem_of_In.
Qed.

Lemma walk_node_path_below n root p :
  p ∈ (λ t, fst (fst t)) <$> walk_node root n → ∃ q, p = root ++ q.
Proof.
  intros (t & -> & Ht)%list_elem_of_fmap.
  apply elem_of_walk_node in Ht as (q & es & _ & ->). by exists q.
Qed.

(** The walk of a well-formed tree visits no path twice. *)
Lemma NoDup_walk_node n :
  well_formed n = true →
  ∀ root, NoDup ((λ t, fst (fst t)) <$> walk_node root n).
Proof.
  induction n as [content | es IH] using node_nested_ind; intros Hwf root.
  - constructor.
  - apply well_formed_Dir in Hwf as [Hnames Hwf].
    rewrite walk_node_Dir, fmap_cons. apply NoDup_cons. split.
    + simpl. intros (t & Hp & Ht)%list_elem_of_fmap.
      apply elem_of_concat in Ht as (l & Hl & Ht).
      apply list_elem_of_fmap in Hl as (e & -> & _).
      apply elem_of_walk_node in Ht as (q & es' & _ & ->). simpl in Hp.
      apply (f_equal length) in Hp. rewrite !length_app in Hp. simpl in Hp. lia.
    + rewrite Forall_forall in IH.
      clear -Hnames Hwf IH.
      induction es as [|e es IHes]; [constructor |].
      rewrite fmap_cons in Hnames. apply NoDup_cons in Hnames as [Hfresh Hnames].
      rewrite fmap_cons. simpl concat. rewrite fmap_app. apply NoDup_app.
      split; [|split].
      * apply IH; [apply list_elem_of_here | apply Hwf, list_elem_of_here].
      * intros p (q & ->)%walk_node_path_below (t & Hp & Ht)%list_elem_of_fmap.
        apply elem_of_concat in Ht as (l & Hl & Ht).
        apply list_elem_of_fmap in Hl as (e' & -> & He').
        apply elem_of_walk_node in Ht as (q' & es' & _ & ->). simpl in Hp.
        rewrite <- !app_assoc in Hp. apply app_inv_head in Hp.
        injection Hp as Hname _. apply Hfresh.
        apply list_elem_of_fmap. by exists e'.
      * apply IHes; [| exact Hnames |].
        -- intros e' He'. apply IH. by apply list_elem_of_further.
        -- intros e' He'. apply Hwf. by apply list_elem_of_further.
Qed.

Lemma NoDup_find_component_dirs d base_path :
  well_formed_disk d = true → NoDup (_find_component_dirs d base_path).
Proof.
  intros Hwf. rewrite find_component_dirs_walk.
  apply NoDup_fmap_list_filter. unfold walk.
  destruct (resolve d base_path) as [n|] eqn:Hres; [|constructor].
  apply NoDup_walk_node. by apply (resolve_well_formed d base_path).
Qed.

Lemma find_component_dirs_below d base_path p :
  p ∈ _find_component_dirs d base_path → ∃ q, p = base_path ++ q.
Proof.
  rewrite find_component_dirs_walk.
  intros (t & -> & Ht)%list_elem_of_fmap.
  apply list_elem_of_In, filter_In in Ht as [Ht _]. unfold walk in Ht.
  destruct (resolve d base_path); [|destruct Ht].
  apply list_elem_of_In, elem_of_walk_node in Ht as (q & es & _ & ->).
  by exists q.
Qed.

Lemma snd_tier_units d level p :
  p ∈ snd <$> tier_units d level →
  p ∈ _find_component_dirs d (components_path ++ [level]).
Proof.
  unfold tier_units. destruct (exists_ d _); [|by intros ?%elem_of_nil].
  rewrite <- list_fmap_compose.
  by intros (u & -> & Hu)%list_elem_of_fmap.
Qed.

Lemma NoDup_snd_tier_units d level :
  well_formed_disk d = true → NoDup (snd <$> tier_units d level).
Proof.
  intros Hwf. unfold tier_units. destruct (exists_ d _); [|constructor].
  rewrite <- list_fmap_compose.
  replace (snd ∘ (λ unit_path : Path, (level, unit_path))) with (@id Path)
    by reflexivity.
  rewrite list_fmap_id. by apply NoDup_find_component_dirs.
Qed.

Lemma tier_units_disjoint d level level' p :
  level ≠ level' →
  p ∈ snd <$> tier_units d level → p ∈ snd <$> tier_units d level' → False.
Proof.
  intros Hne [q ->]%snd_tier_units%find_component_dirs_below
    [q' Hq']%snd_tier_units%find_component_dirs_below.
  unfold components_path in Hq'. simpl in Hq'. by injection Hq'.
Qed.

End located_once.

(** X6.  On a disk whose directories list each name once, the locator
    yields every directory at most once, and the units located in the
    three tiers are pairwise different directories: no directory is
    analysed twice in a run. *)
Theorem units_located_once (d : disk) :
  well_formed_disk d = true →
  (∀ base_path, NoDup (_find_component_dirs d base_path))
  ∧ NoDup (snd <$> located_units d).
Proof.
  intros Hwf. split; [intros base_path; by apply NoDup_find_component_dirs |].
  unfold located_units. rewrite !fmap_app.
  apply NoDup_app. split; [by apply NoDup_snd_tier_units |]. split.
  - intros p Hp [Hp' | Hp']%elem_of_app;
      (eapply tier_units_disjoint; [| exact Hp | exact Hp']; discriminate).
  - apply NoDup_app. split; [by apply NoDup_snd_tier_units |].
    split; [|by apply NoDup_snd_tier_units].
    intros p Hp Hp'.
    eapply tier_units_disjoint; [| exact Hp | exact Hp']; discriminate.
Qed.

Lemma units_located_once_witness :
  NoDup (snd <$> located_units Sample.project).
Proof. exact (proj2 (units_located_once Sample.project eq_refl)). Defined.

(** ** X7: running the analysis again on the same analyzer *)

(** X7.  [analyze] never clears the report of its analyzer: called when the
    report already holds [r], it returns [r] followed by what a first call
    reports.  A second call on an unchanged disk therefore returns a
    report that holds every violation of the first twice and whose
    counters are doubled. *)
Theorem analyze_appends_to_report (d : disk) (src_path : FS.PurePath) :
  analyze_on d src_path Report.empty = analyze d src_path
  ∧ (∀ r, analyze_on d src_path r = Report.combine r <$> analyze d src_path)
  ∧ (∀ r1, analyze d src_path = Some r1 →
       ∃ r2, analyze_on d src_path r1 = Some r2
             ∧ violations r2 = violations r1 ++ violations r1
             ∧ components_found r2 = 2 * components_found r1
             ∧ components_with_tests r2 = 2 * components_with_tests r1
             ∧ components_with_barrels r2 = 2 * components_with_barrels r1).
Proof.
  assert (Hon : ∀ r, analyze_on d src_path r = Report.combine r <$> analyze d src_path).
  { intros r. unfold analyze_on, analyze. destruct (negb _).
    - simpl. f_equal. apply (appends_add _ r).
    - rewrite (appends_analyze_components d src_path
                 (_check_top_level_structure d src_path r)).
      rewrite (appends_analyze_components d src_path
                 (_check_top_level_structure d src_path Report.empty)).
      rewrite (appends_check_top_level_structure d src_path r).
      destruct (_analyze_components d src_path Report.empty) as [e|]; [|reflexivity].
      simpl. by rewrite combine_assoc. }
  split; [reflexivity |]. split; [exact Hon |].
  intros r1 Hrun. exists (Report.combine r1 r1).
  rewrite Hon, Hrun. simpl. repeat split; lia.
Qed.

Lemma analyze_appends_to_report_witness :
  ∃ r1 r2, analyze Sample.project Sample.src = Some r1
           ∧ analyze_on Sample.project Sample.src r1 = Some r2
           ∧ components_found r2 = 6.
Proof.
  destruct (analyze_appends_to_report Sample.project Sample.src) as (_ & _ & H).
  destruct (analyze Sample.project Sample.src) as [r1|] eqn:Hrun;
    [|vm_compute in Hrun; discriminate Hrun].
  destruct (H r1 eq_refl) as (r2 & Hr2 & _ & Hfound & _).
  exists r1, r2. split; [reflexivity |]. split; [exact Hr2 |].
  rewrite Hfound. vm_compute in Hrun. injection Hrun as <-. reflexivity.
Defined.

(** ** X8: what counts as a forbidden import *)

Section regex_facts.

Lemma strip_prefix_spec (l s s' : string) :
  Text.strip_prefix l s = Some s' ↔ s = l +:+ s'.
Proof.
  revert s. induction l as [|a l IH]; intros s; simpl.
  - rewrite append_nil_l. split; [by intros [= ->] | by intros ->].
  - destruct s as [|b s]; [split; discriminate |].
    rewrite append_cons. destruct (Ascii.eqb_spec a b) as [-> | Hne].
    + rewrite IH. split; [by intros -> | by intros [= ->]].
    + split; [discriminate | intros [= Hab _]; by destruct Hne].
Qed.

Lemma all_chars_app (p : ascii → bool) (s t : string) :
  all_chars p (s +:+ t) ↔ all_chars p s ∧ all_chars p t.
Proof.
  induction s as [|c s IH]; [simpl; rewrite append_nil_l; tauto |].
  rewrite append_cons. simpl. rewrite IH. tauto.
Qed.

Lemma star_sound (p : ascii → bool) (s : string) cont x :
  Re.star p s cont = Some x →
  ∃ s1 s2, s = s1 +:+ s2 ∧ all_chars p s1 ∧ cont s2 = Some x.
Proof.
  induction s as [|c s IH]; simpl.
  - intros H. by exists ""%string, ""%string.
  - destruct (p c) eqn:Hc.
    + destruct (Re.star p s cont) as [y|] eqn:Hstar.
      * intros [= <-]. destruct (IH eq_refl) as (s1 & s2 & -> & H1 & H2).
        exists (String c s1), s2. by rewrite append_cons.
      * intros H. by exists ""%string, (String c s).
    + intros H. by exists ""%string, (String c s).
Qed.

Lemma star_fallback (p : ascii → bool) (s : string) cont :
  is_Some (cont s) → is_Some (Re.star p s cont).
Proof.
  intros H. destruct s as [|c s]; simpl; [exact H |].
  destruct (p c); [|exact H].
  destruct (Re.star p s cont); [by eexists | exact H].
Qed.

Lemma star_complete (p : ascii → bool) (s1 s2 : string) cont :
  all_chars p s1 → is_Some (cont s2) → is_Some (Re.star p (s1 +:+ s2) cont).
Proof.
  induction s1 as [|c s1 IH]; intros Hall Hcont.
  - rewrite append_nil_l. by apply star_fallback.
  - destruct Hall as [Hc Hall]. rewrite append_cons. simpl. rewrite Hc.
    destruct (IH Hall Hcont) as [y ->]. by eexists.
Qed.

(** The matcher finds nothing but what the pattern denotes... *)
Lemma run_sound (r : Re.regex) : ∀ s cont x,
  Re.run r s cont = Some x →
  ∃ s1 s2, s = s1 +:+ s2 ∧ denotes r s1 ∧ cont s2 = Some x.
Proof.
  induction r as [l | k | k | k | r1 IH1 r2 IH2 | r1 IH1 r2 IH2];
    intros s cont x; simpl.
  - destruct (Text.strip_prefix l s) as [s'|] eqn:Hl; [|discriminate].
    apply strip_prefix_spec in Hl as ->. intros H. by exists l, s'.
  - destruct s as [|c s]; [discriminate |].
    destruct (Re.matches k c) eqn:Hc; [|discriminate].
    intros H. exists (String c ""), s. split; [reflexivity |].
    split; [by exists c | exact H].
  - apply star_sound.
  - destruct s as [|c s]; [discriminate |].
    destruct (Re.matches k c) eqn:Hc; [|discriminate].
    intros (s1 & s2 & -> & H1 & H2)%star_sound.
    exists (String c s1), s2. rewrite append_cons. repeat split; done.
  - intros (s1 & s' & -> & H1 & (s2 & s3 & -> & H2 & H3)%IH2)%IH1.
    exists (s1 +:+ s2), s3. rewrite append_assoc. split; [reflexivity |].
    split; [by exists s1, s2 | exact H3].
  - destruct (Re.run r1 s cont) as [y|] eqn:H1.
    + intros [= <-]. apply IH1 in H1 as (s1 & s2 & -> & H1 & H2).
      exists s1, s2. auto.
    + intros (s1 & s2 & -> & H2 & H3)%IH2. exists s1, s2. auto.
Qed.

(** ... and finds a match whenever there is one. *)
Lemma run_complete (r : Re.regex) : ∀ s1 s2 cont,
  denotes r s1 → is_Some (cont s2) → is_Some (Re.run r (s1 +:+ s2) cont).
Proof.
  induction r as [l | k | k | k | r1 IH1 r2 IH2 | r1 IH1 r2 IH2];
    intros s1 s2 cont; simpl.
  - intros -> Hcont.
    by rewrite (proj2 (strip_prefix_spec l (l +:+ s2) s2) eq_refl).
  - intros (c & -> & Hc) Hcont. rewrite append_cons, append_nil_l. by rewrite Hc.
  - apply star_complete.
  - intros [Hne Hall] Hcont. destruct s1 as [|c s1]; [done |].
    destruct Hall as [Hc Hall]. rewrite append_cons, Hc.
    by apply star_complete.
  - intros (sa & sb & -> & Ha & Hb) Hcont. rewrite append_assoc.
    apply IH1; [exact Ha |]. by apply IH2.
  - intros [H | H] Hcont.
    + destruct (IH1 s1 s2 cont H Hcont) as [y ->]. by eexists.
    + destruct (Re.run r1 (s1 +:+ s2) cont); [by eexists | by apply IH2].
Qed.

(** [re.search] succeeds exactly on the texts that hold a match. *)
Lemma search_spec (r : Re.regex) (s : string) :
  Re.search r s = true ↔
  ∃ before m after, s = before +:+ m +:+ after ∧ denotes r m.
Proof.
  split.
  - induction s as [|c s IH]; simpl; unfold Re.match_at.
    + destruct (Re.run r "" Some) as [x|] eqn:Hrun; [|discriminate].
      intros _. apply run_sound in Hrun as (m & after & Hs & Hm & _).
      by exists ""%string, m, after.
    + destruct (Re.run r (String c s) Some) as [x|] eqn:Hrun.
      * intros _. apply run_sound in Hrun as (m & after & Hs & Hm & _).
        by exists ""%string, m, after.
      * intros (before & m & after & -> & Hm)%IH.
        by exists (String c before), m, after.
  - intros (before & m & after & -> & Hm).
    induction before as [|c before IH].
    + rewrite append_nil_l.
      destruct (run_complete r m after Some Hm) as [x Hx]; [by eexists |].
      destruct (m +:+ after); simpl; unfold Re.match_at; by rewrite Hx.
    + rewrite append_cons. simpl. rewrite IH. by destruct (Re.match_at _ _).
Qed.

End regex_facts.

Lemma matches_quotes (c : ascii) :
  Re.matches (Re.OneOf quotes) c = true ↔ c = "'"%char ∨ c = ascii_of_nat 34.
Proof.
  unfold Re.matches, Re.mem_ascii, quotes. cbn [existsb].
  rewrite orb_false_r, orb_true_iff, !Ascii.eqb_eq. reflexivity.
Qed.

(** X8.  The text of a file matches the import pattern of the tier
    [forbidden] if and only if it holds, somewhere, the word [from], then
    one or more white-space characters, then a single or a double quote,
    then any characters other than a line break, then [/forbidden/].
    (The aliased form [@/components/forbidden/] is one such text, so the
    second alternative of the pattern adds nothing; neither the word
    [import] nor a closing quote is asked for.) *)
Theorem forbidden_import_shape (forbidden content : string) :
  Re.search (import_pattern forbidden) content = true ↔
  ∃ before spaces quote inside after,
    content = before +:+ "from" +:+ spaces
              +:+ String quote (inside +:+ "/" +:+ forbidden +:+ "/" +:+ after)
    ∧ spaces ≠ ""%string
    ∧ all_chars Re.is_space spaces
    ∧ (quote = "'"%char ∨ quote = ascii_of_nat 34)
    ∧ all_chars (λ c, negb (Ascii.eqb c "010"%char)) inside.
Proof.
  rewrite search_spec. split.
  - intros (before & m & after & -> & [H | H]).
    + destruct H as (x4 & lit & -> & (x3 & inside & -> & (x2 & q & ->
                       & (from & spaces & -> & -> & Hne & Hspaces)
                       & (quote & -> & Hquote)) & Hinside) & ->).
      exists before, spaces, quote, inside, after.
      split; [by rewrite !append_assoc, (append_cons quote ""), append_nil_l |].
      split; [exact Hne |]. split; [exact Hspaces |].
      split; [by apply matches_quotes | exact Hinside].
    + destruct H as (x3 & lit & -> & (x2 & q & ->
                       & (from & spaces & -> & -> & Hne & Hspaces)
                       & (quote & -> & Hquote)) & ->).
      exists before, spaces, quote, "@/components"%string, after.
      split; [by rewrite !append_assoc, (append_cons quote ""), append_nil_l |].
      split; [exact Hne |]. split; [exact Hspaces |].
      split; [by apply matches_quotes |].
      simpl. repeat split; reflexivity.
  - intros (before & spaces & quote & inside & after & -> & Hne & Hspaces
            & Hquote & Hinside).
    exists before,
      (((("from" +:+ spaces) +:+ String quote "") +:+ inside)
       +:+ ("/" +:+ forbidden +:+ "/")), after.
    split; [by rewrite !append_assoc, (append_cons quote ""), append_nil_l |].
    left. exists ((("from" +:+ spaces) +:+ String quote "") +:+ inside),
            ("/" +:+ forbidden +:+ "/").
    split; [reflexivity |]. split; [|reflexivity].
    exists (("from" +:+ spaces) +:+ String quote ""), inside.
    split; [reflexivity |]. split; [|exact Hinside].
    exists ("from" +:+ spaces), (String quote "").
    split; [reflexivity |]. split.
    + exists "from"%string, spaces. split; [reflexivity |].
      split; [reflexivity |]. by split.
    + exists quote. split; [reflexivity |]. by apply matches_quotes.
Qed.

(** A tier name that no slash precedes is not a match, and neither is one
    that a line break separates from the quote. *)
Example import_without_slash_not_flagged :
  Re.search (import_pattern "molecules") "import { Card } from 'molecules/Card'" = false
  ∧ Re.search (import_pattern "molecules")
      ("import { Card } from '.." +:+ String "010" "/molecules/Card'") = false
  ∧ Re.search (import_pattern "molecules") "// moved from '../molecules/Card'" = true.
Proof. repeat split; vm_compute; reflexivity. Qed.

(** ** X9: the groups of the console report *)

Section console_groups.










End console_groups.


(** ** X10: the closing line and the exit code *)

Section console_summary.

Lemma list_filter_eqb {A} (f : A → string) (s : string) (l : list A) :
  List.filter (λ x, String.eqb (f x) s) l = filter (λ x, f x = s) l.
Proof.
  induction l as [|x l IH]; [reflexivity |]. simpl.
  destruct (String.eqb_spec (f x) s) as [Heq | Hne].
  - by rewrite filter_cons_True, IH by exact Heq.
  - by rewrite filter_cons_False, IH by exact Hne.
Qed.

Lemma has_errors_count (r : AnalysisReport) :
  Report.has_errors r = false ↔
  length (filter (λ v, severity v = "error"%string) (violations r)) = 0%nat.
Proof.
  unfold Report.has_errors. induction (violations r) as [|v vs IH]; [done |].
  simpl. destruct (String.eqb_spec (severity v) "error") as [Heq | Hne].
  - rewrite filter_cons_True by exact Heq. simpl. split; discriminate.
  - rewrite filter_cons_False by exact Hne. simpl. exact IH.
Qed.

Lemma severity_partition (vs : list Violation) :
  (∀ v, v ∈ vs → severity v = "warning"%string ∨ severity v = "error"%string) →
  (length (filter (λ v, severity v = "error"%string) vs)
   + length (filter (λ v, severity v = "warning"%string) vs))%nat = length vs.
Proof.
  induction vs as [|v vs IH]; intros Hsev; [reflexivity |].
  assert (IH' := IH (λ w Hw, Hsev w (list_elem_of_further _ _ _ Hw))).
  destruct (Hsev v (list_elem_of_here _ _)) as [Hw | He].
  - rewrite filter_cons_False by (rewrite Hw; discriminate).
    rewrite filter_cons_True by exact Hw. simpl. lia.
  - rewrite filter_cons_True by exact He.
    rewrite filter_cons_False by (rewrite He; discriminate). simpl. lia.
Qed.

Lemma main_printed argv at_path report :
  printed (main argv at_path) = Some report →
  analyze (at_path (match argv with _ :: a :: _ => a | _ => "./src"%string end))
    (parse (match argv with _ :: a :: _ => a | _ => "./src"%string end))
  = Some report
  ∧ exit_code (main argv at_path) = (if Report.has_errors report then 1 else 0).
Proof.
  unfold main.
  destruct (at_path _) as [root|]; [|discriminate].
  destruct (analyze (Some root) _) as [r|]; [|discriminate].
  simpl. intros [= ->]. by split.
Qed.

End console_summary.

(** X10.  When [main] has printed a report that holds violations, the
    printed texts end with a rule, the closing line and an empty text.
    With [errors] and [warnings] the numbers of violations of severity
    error and warning, which add up to the number of violations: the exit
    code is 0 exactly when [errors] is zero, and then the closing line
    ends with the number of warnings and [no errors]; it is 1 exactly when
    [errors] is not zero, and then the closing line ends with both
    numbers. *)
Theorem summary_agrees_with_exit_code (argv : list string)
    (at_path : string → disk) (report : AnalysisReport) :
  printed (main argv at_path) = Some report →
  violations report ≠ [] →
  let errors :=
    length (filter (λ v, severity v = "error"%string) (violations report)) in
  let warnings :=
    length (filter (λ v, severity v = "warning"%string) (violations report)) in
  ∃ body closing,
    print_report report = body ++ [Console.times "-" 60; closing; EmptyString]
    ∧ (errors + warnings)%nat = length (violations report)
    ∧ (exit_code (main argv at_path) = 0 ↔ errors = 0%nat)
    ∧ (exit_code (main argv at_path) = 1 ↔ errors ≠ 0%nat)
    ∧ (errors = 0%nat →
       is_suffix_of ("  " +:+ Text.of_nat warnings +:+ " warning(s), no errors") closing)
    ∧ (errors ≠ 0%nat →
       is_suffix_of (" " +:+ Text.of_nat errors +:+ " error(s), "
                     +:+ Text.of_nat warnings +:+ " warning(s)") closing).
Proof.
  intros Hprinted Hsome.
  destruct (main_printed argv at_path report Hprinted) as [Hrun Hexit].
  assert (Hshape : ∃ body,
            print_report report =
              body ++ [Console.times "-" 60;
                       Console.summary_line
                         (length (filter (λ v, severity v = "error"%string)
                                    (violations report)))
                         (length (filter (λ v, severity v = "warning"%string)
                                    (violations report)));
                       EmptyString]).
  { unfold print_report. destruct (violations report) as [|v vs] eqn:Hvs;
      [by destruct Hsome |].
    rewrite <- Hvs. rewrite !list_filter_eqb.
    eexists. rewrite app_assoc. reflexivity. }
  intros errors warnings. fold errors warnings in Hshape.
  destruct Hshape as [body Hshape].
  exists body, (Console.summary_line errors warnings).
  split; [exact Hshape |]. split.
  { apply severity_partition. intros v Hv.
    destruct (analyze_violation_kinds _ _ _ Hrun v Hv)
      as [[_ ->] | [[_ H] | [[_ H] | [[_ H] | [[_ H] | [_ H]]]]]]; auto. }
  pose proof (has_errors_count report) as Hcount. fold errors in Hcount.
  rewrite Hexit. unfold Console.summary_line.
  destruct (Report.has_errors report).
  - assert (errors ≠ 0%nat) as Hne.
    { intros H. apply Hcount in H. discriminate H. }
    split; [split; [discriminate | intros H; by destruct Hne] |].
    split; [split; [intros _; exact Hne | reflexivity] |].
    split; [intros H; by destruct Hne |]. intros _.
    destruct errors as [|n]; [by destruct Hne |]. cbn [Nat.eqb negb].
    by exists Console.cross_mark.
  - assert (errors = 0%nat) as Hzero by (by apply Hcount).
    split; [split; [intros _; exact Hzero | reflexivity] |].
    split; [split; [discriminate | intros H; by destruct H] |].
    split; [|intros H; by destruct H]. intros _.
    rewrite Hzero. cbn [Nat.eqb negb]. by exists Console.warning_sign.
Qed.

Lemma summary_agrees_with_exit_code_witness :
  ∃ report, printed (main ["analyze_structure.py"; "src"]%string Sample.world)
            = Some report
            ∧ exit_code (main ["analyze_structure.py"; "src"]%string Sample.world) = 1.
Proof.
  destruct (printed (main ["analyze_structure.py"; "src"]%string Sample.world))
    as [report|] eqn:Hprinted; [|vm_compute in Hprinted; discriminate Hprinted].
  exists report. split; [reflexivity |].
  destruct (summary_agrees_with_exit_code _ _ report Hprinted)
    as (body & closing & _ & _ & _ & Hone & _).
  - vm_compute in Hprinted. injection Hprinted as <-. discriminate.
  - apply Hone. vm_compute in Hprinted. injection Hprinted as <-.
    vm_compute. discriminate.
Defined.

(** ** X11: the path shown for a violation *)

Section shown_path.








End shown_path.


(** The paths of the sample report as they are shown. *)
Example shown_paths :
  Console.rel_path "src/components/atoms/Button/Button.tsx" = "atoms/Button/Button.tsx"%string
  ∧ Console.rel_path "src/components" = "src/components"%string
  ∧ Console.rel_path "src/components/atoms/components/Card" = "Card"%string.
Proof. repeat split; vm_compute; reflexivity. Qed.

(** ** X12: what a report without violations certifies *)

Lemma analyze_starts_with_structure (d : disk) (src_path : FS.PurePath)
    (r : AnalysisReport) :
  exists_ d components_path = true →
  analyze d src_path = Some r →
  ∃ rest, violations r =
            violations (_check_top_level_structure d src_path Report.empty) ++ rest.
Proof.
  intros Hexists. revert r.
  apply (analyze_invariant d src_path (λ r, ∃ rest, violations r = _ ++ rest)).
  - intros Hmissing. rewrite Hmissing in Hexists. discriminate Hexists.
  - intros _. exists []. by rewrite app_nil_r.
  - intros unit_path level r r' _ [rest Hv] Hunit.
    exists (rest ++ recorded r r').
    rewrite (analyze_component_violations d src_path _ _ _ _ Hunit), Hv.
    by rewrite app_assoc.
Qed.

(** X12.  When the report that [analyze] returns holds no violation, then
    [components/] and its three tier directories exist, every located unit
    was counted as having a test and as having a barrel, and what
    [print_report] prints ends with the line that reports no violations. *)
Theorem clean_report (d : disk) (src_path : FS.PurePath) (r : AnalysisReport) :
  analyze d src_path = Some r →
  violations r = [] →
  exists_ d components_path = true
  ∧ (∀ t, t ∈ ["atoms"; "molecules"; "organisms"]%string →
          exists_ d (components_path ++ [t]) = true)
  ∧ components_with_tests r = components_found r
  ∧ components_with_barrels r = components_found r
  ∧ ∃ body, print_report r =
              body ++ [Console.party
                       +:+ " No violations found! Your structure looks good."
                       +:+ Console.newline].
Proof.
  intros Hrun Hnone.
  assert (Hexists : exists_ d components_path = true).
  { destruct (exists_ d components_path) eqn:Hexists; [reflexivity |].
    unfold analyze in Hrun. rewrite Hexists in Hrun. simpl in Hrun.
    injection Hrun as <-. discriminate Hnone. }
  split; [exact Hexists |]. split.
  - destruct (analyze_starts_with_structure d src_path r Hexists Hrun) as [rest Hv].
    rewrite Hnone, check_top_level_structure_recorded in Hv.
    symmetry in Hv. apply app_eq_nil in Hv as [Hv _].
    apply fmap_nil_inv in Hv.
    intros t Ht. destruct (exists_ d (components_path ++ [t])) eqn:Htier;
      [reflexivity |].
    assert (In t (List.filter (λ t, negb (exists_ d (components_path ++ [t])))
                    ["atoms"; "molecules"; "organisms"]%string)) as Hin.
    { apply filter_In. split; [by apply list_elem_of_In | by rewrite Htier]. }
    rewrite Hv in Hin. destruct Hin.
  - assert (components_found r =
              components_with_barrels r
              + Z.of_nat (length (filter (λ v, type v = "barrel"%string)
                                    (violations r)))
            ∧ components_found r =
                components_with_tests r
                + Z.of_nat (length (filter (λ v, type v = "test"%string)
                                      (violations r)))) as [Hb Ht].
    { revert r Hrun Hnone.
      refine (λ r Hrun _, analyze_invariant d src_path (λ r, _ ∧ _) _ _ _ r Hrun).
      - intros _. split; reflexivity.
      - intros _. apply counters_match_start.
      - intros unit_path level r0 r1 _ IH Hunit.
        exact (counters_match_step d src_path unit_path level r0 r1 IH Hunit). }
    rewrite Hnone in Hb, Ht. simpl in Hb, Ht.
    split; [lia |]. split; [lia |].
    unfold print_report. rewrite Hnone. by eexists.
Qed.

Lemma clean_report_witness :
  let d := Some (Dir [("components",
             Dir [("atoms",
                   Dir [("Tag", Dir [("Tag.tsx", File (Some "export const Tag = 1"));
                                     ("Tag.test.tsx", File (Some ""));
                                     ("index.ts", File (Some ""))])]);
                  ("molecules", Dir []);
                  ("organisms", Dir [])])])%string in
  ∃ r, analyze d Sample.src = Some r
       ∧ violations r = []
       ∧ components_with_tests r = components_found r.
Proof.
  intros d.
  destruct (analyze d Sample.src) as [r|] eqn:Hrun;
    [|vm_compute in Hrun; discriminate Hrun].
  exists r. split; [reflexivity |].
  assert (violations r = []) as Hnone
    by (vm_compute in Hrun; by injection Hrun as <-).
  split; [exact Hnone |].
  by destruct (clean_report d Sample.src r Hrun Hnone) as (_ & _ & Ht & _).
Defined.

(** ** X13: a unit is analysed from its direct entries alone *)

Section direct_entries_facts.

Lemma child_direct_entries seg es :
  child seg (direct_entries es)
  = (λ n, match n with File content => File content | Dir _ => Dir [] end)
      <$> child seg es.
Proof.
  unfold child, direct_entries.
  induction es as [|[nm n] es IH]; [reflexivity |].
  simpl. destruct (String.eqb nm seg); [reflexivity | exact IH].
Qed.

Lemma resolve_entry d unit es seg :
  resolve d unit = Some (Dir es) → resolve d (unit ++ [seg]) = child seg es.
Proof.
  intros Hunit. rewrite resolve_app, Hunit. simpl.
  by destruct (child seg es).
Qed.

Variables (d d' : disk) (src_path : FS.PurePath) (unit_path : Path).
Variables (es es' : list (string * node)).
Hypothesis Hunit : resolve d unit_path = Some (Dir es).
Hypothesis Hunit' : resolve d' unit_path = Some (Dir es').
Hypothesis Hsame : direct_entries es = direct_entries es'.

Lemma child_same seg :
  (λ n, match n with File content => File content | Dir _ => Dir [] end)
    <$> child seg es
  = (λ n, match n with File content => File content | Dir _ => Dir [] end)
      <$> child seg es'.
Proof. by rewrite <- !child_direct_entries, Hsame. Qed.

Lemma is_file_same seg :
  is_file d (unit_path ++ [seg]) = is_file d' (unit_path ++ [seg]).
Proof.
  unfold is_file.
  rewrite (resolve_entry d unit_path es seg Hunit),
          (resolve_entry d' unit_path es' seg Hunit').
  pose proof (child_same seg) as H.
  destruct (child seg es) as [[c|l]|], (child seg es') as [[c'|l']|];
    cbv [fmap option_fmap option_map] in H; simpl; congruence.
Qed.

Lemma read_text_same seg :
  read_text d (unit_path ++ [seg]) = read_text d' (unit_path ++ [seg]).
Proof.
  unfold read_text.
  rewrite (resolve_entry d unit_path es seg Hunit),
          (resolve_entry d' unit_path es' seg Hunit').
  pose proof (child_same seg) as H.
  destruct (child seg es) as [[c|l]|], (child seg es') as [[c'|l']|];
    cbv [fmap option_fmap option_map] in H; simplify_eq; reflexivity.
Qed.

Lemma names_same : map fst es = map fst es'.
Proof.
  assert (∀ l, map fst (direct_entries l) = map fst l) as Hfst.
  { intros l. unfold direct_entries. rewrite map_map. by apply map_ext. }
  by rewrite <- (Hfst es), <- (Hfst es'), Hsame.
Qed.

Lemma iterdir_same : iterdir d unit_path = iterdir d' unit_path.
Proof.
  unfold iterdir. rewrite Hunit, Hunit'. f_equal.
  rewrite <- (map_map fst (λ nm, unit_path ++ [nm]) es),
          <- (map_map fst (λ nm, unit_path ++ [nm]) es').
  by rewrite names_same.
Qed.

Lemma check_file_same level r seg :
  check_file d src_path level r (unit_path ++ [seg])
  = check_file d' src_path level r (unit_path ++ [seg]).
Proof.
  unfold check_file, _check_imports, _check_component_logic.
  by rewrite !read_text_same.
Qed.

Lemma foldl_check_file_same level files :
  (∀ file, In file files → ∃ seg, file = unit_path ++ [seg]) →
  ∀ r, foldl (check_file d src_path level) r files
       = foldl (check_file d' src_path level) r files.
Proof.
  induction files as [|file files IH]; intros Hfiles r; [reflexivity |].
  simpl. destruct (Hfiles file (or_introl eq_refl)) as [seg ->].
  rewrite check_file_same. apply IH. intros f Hf. apply Hfiles. by right.
Qed.

Lemma analyze_component_same level r :
  _analyze_component d src_path unit_path level r
  = _analyze_component d' src_path unit_path level r.
Proof.
  unfold _analyze_component. rewrite <- iterdir_same.
  unfold iterdir. rewrite Hunit.
  set (files := map (λ e, unit_path ++ [fst e]) es).
  assert (Hfiles : ∀ file, In file files → ∃ seg, file = unit_path ++ [seg]).
  { intros file Hin. apply in_map_iff in Hin as (e & <- & _). by exists (fst e). }
  assert (Hfilter : List.filter (is_file d) files = List.filter (is_file d') files).
  { apply filter_ext_in. intros file Hin.
    destruct (Hfiles file Hin) as [seg ->]. apply is_file_same. }
  rewrite <- Hfilter. f_equal.
  apply foldl_check_file_same. exact Hfiles.
Qed.

End direct_entries_facts.

(** X13.  [_analyze_component] reads the direct entries of the unit and
    nothing below them: on two disks whose listings of the unit agree once
    the content of every sub-directory is left out, it gives the same
    result, whatever the sub-directories hold.  A test or a barrel file in
    a sub-directory of the unit therefore does not count for the unit. *)
Theorem unit_analysis_ignores_subdirectories (d d' : disk)
    (src_path : FS.PurePath) (unit_path : Path) (level : string)
    (es es' : list (string * node)) (r : AnalysisReport) :
  resolve d unit_path = Some (Dir es) →
  resolve d' unit_path = Some (Dir es') →
  direct_entries es = direct_entries es' →
  _analyze_component d src_path unit_path level r
  = _analyze_component d' src_path unit_path level r.
Proof.
  intros Hunit Hunit' Hsame.
  exact (analyze_component_same d d' src_path unit_path es es'
           Hunit Hunit' Hsame level r).
Qed.

Lemma unit_analysis_ignores_subdirectories_witness :
  let unit_with tests :=
    Some (Dir [("Tag", Dir [("Tag.tsx", File (Some "export const Tag = 1"));
                            ("index.ts", File (Some "export * from './Tag'"));
                            ("__tests__", Dir tests)])])%string in
  _analyze_component (unit_with [("Tag.test.tsx", File (Some "test"))]%string)
    Sample.src ["Tag"%string] "atoms" Report.empty
  = _analyze_component (unit_with []) Sample.src ["Tag"%string] "atoms" Report.empty.
Proof.
  intros unit_with.
  eapply unit_analysis_ignores_subdirectories; reflexivity.
Defined.

(** ** X14: the groups of the printed report of a run *)

Section run_groups.

Variables (d : disk) (src_path : FS.PurePath).



End run_groups.


